(** * biy-game: the [Player] component (src/components/player.py)

    A shallow embedding of the player's input handling, simulation tick,
    velocity decay and draw-time position update, followed by the
    properties claimed about them.

    Numbers.  Python's [float] is IEEE-754 binary64 with round-to-nearest-even;
    it is modelled by [spec_float] with precision 53 and maximal exponent 1024,
    whose operations are plain functions on [Z] and therefore evaluate inside
    Rocq.  The [int] fields ([direction], [power_size], the configured sizes)
    are [Z].  The speed and position fields hold either the [int] literal [0]
    or a [float]; Python compares and adds the two after converting the [int],
    so the literal [0] is embedded as [+0.0]. *)

From Stdlib Require Import ZArith Bool List Lia.
From Stdlib Require Import QArith Qabs Qround Lqa.
From Stdlib Require Import Floats.SpecFloat.
Import ListNotations.

Local Open Scope Z_scope.

(** ** Binary64 arithmetic *)

Module B64.

Definition prec : Z := 53.
Definition emax : Z := 1024.

Definition float : Type := spec_float.

Definition valid (x : float) : bool := valid_binary prec emax x.

Definition add : float -> float -> float := SFadd prec emax.
Definition mul : float -> float -> float := SFmul prec emax.
Definition div : float -> float -> float := SFdiv prec emax.
Definition opp : float -> float := SFopp.
Definition abs : float -> float := SFabs.

(** Python's comparison operators on floats. *)
Definition eqb : float -> float -> bool := SFeqb.
Definition ltb : float -> float -> bool := SFltb.
Definition leb : float -> float -> bool := SFleb.
Definition gtb (x y : float) : bool := ltb y x.
Definition geb (x y : float) : bool := leb y x.

(** The conversion Python applies to an [int] operand of a float operation:
    the nearest binary64 value, exact below 2^53 in magnitude.  (Python
    raises [OverflowError] from 2^1024 on, where this yields an infinity.) *)
Definition of_int (n : Z) : float := binary_normalize prec emax n 0 false.

Definition zero : float := S754_zero false.

(** The literals of the source: [0.05] and [0.01], each the binary64 value
    nearest to the decimal. *)
Definition lit_0_05 : float := S754_finite false 7205759403792794 (-57).
Definition lit_0_01 : float := S754_finite false 5764607523034235 (-59).

Definition is_zero (x : float) : bool :=
  match x with S754_zero _ => true | _ => false end.

End B64.

Import B64.

(** ** The decay rule

<<
    speedDx = {True: -0.05, False: 0.05}
    x = speed > 0
    speed += speedDx[speed > 0]
    y = speed > 0
    if x != y:
        return 0
    return speed
>> *)

Definition speedDx (b : bool) : float :=
  if b then opp lit_0_05 else lit_0_05.

Definition update_speed (speed : float) : float :=
  let x := gtb speed zero in
  let speed' := add speed (speedDx (gtb speed zero)) in
  let y := gtb speed' zero in
  if negb (Bool.eqb x y) then zero else speed'.

(** [n] successive decay ticks. *)
Fixpoint decay (n : nat) (speed : float) : float :=
  match n with
  | O => speed
  | S k => decay k (update_speed speed)
  end.

(** The same rule read over exact rationals, with the step [1/20]: the
    arithmetic in which the bound [ceil(|v|/0.05)] is computed. *)
Definition Qgtb (a b : Q) : bool := negb (Qle_bool a b).

Definition update_speed_exact (speed : Q) : Q :=
  let x := Qgtb speed 0 in
  let speed' := (speed + (if Qgtb speed 0 then - (1 # 20) else 1 # 20))%Q in
  let y := Qgtb speed' 0 in
  if negb (Bool.eqb x y) then 0%Q else speed'.

Fixpoint decay_exact (n : nat) (speed : Q) : Q :=
  match n with
  | O => speed
  | S k => decay_exact k (update_speed_exact speed)
  end.

(** ** Data model *)

(** Modelled from the spec: the enum [PlayerState] of
    [src.utility.player_state], which is not among the sources.  Its members
    are the four that [player.py] names; the spec lists them as Idle, Aiming,
    ChargingPower and Launched. *)
Inductive PlayerState : Type := IDLE | AIMING | POWER | SHOOTING.

Definition PlayerState_eqb (a b : PlayerState) : bool :=
  match a, b with
  | IDLE, IDLE | AIMING, AIMING | POWER, POWER | SHOOTING, SHOOTING => true
  | _, _ => false
  end.

(** The keys and events [handle_event] distinguishes; every other key code
    is [K_OTHER], every other event type [OtherEvent]. *)
Inductive Key : Type :=
  K_SPACE | K_LEFT | K_RIGHT | K_UP | K_DOWN | K_OTHER (code : Z).

Inductive Event : Type :=
  | KEYDOWN (key : Key)
  | KEYUP (key : Key)
  | USEREVENT
  | OtherEvent (type : Z).

(** The fields of [Player] that the simulation reads and writes.  The
    bounding rectangle [biy], the sprite [image] and the set [gures] are
    rendering data derived from these and are left out. *)
Record Player : Type := mkPlayer {
  state : PlayerState;
  pos_x : float;
  pos_y : float;
  direction : Z;
  speed_x : float;
  speed_y : float;
  shooting_start_position : float * float
}.

(** What the player reads and writes of its [game]: the shared power value,
    the in-flight flag and the size of [game.screen]. *)
Record Game : Type := mkGame {
  power_size : Z;
  shooting : bool;
  screen_width : Z;
  screen_height : Z
}.

(** The two settings of the framework that [handle_event] arms:
    [pygame.key.set_repeat(delay, interval)] and
    [pygame.time.set_timer(USEREVENT, millis)]; [None] while never set. *)
Record Pygame : Type := mkPygame {
  key_repeat : option (Z * Z);
  user_timer : option Z
}.

Record World : Type := mkWorld {
  player : Player;
  game : Game;
  pygame : Pygame
}.

(** What one call of [update] reads from the framework: how many
    [USEREVENT]s are queued, and whether the left and right keys are held. *)
Record TickInput : Type := mkTick {
  user_events : nat;
  held_left : bool;
  held_right : bool
}.

Definition set_state (st : PlayerState) (p : Player) : Player :=
  mkPlayer st (pos_x p) (pos_y p) (direction p) (speed_x p) (speed_y p)
           (shooting_start_position p).

Definition set_pos (x y : float) (p : Player) : Player :=
  mkPlayer (state p) x y (direction p) (speed_x p) (speed_y p)
           (shooting_start_position p).

Definition set_direction (d : Z) (p : Player) : Player :=
  mkPlayer (state p) (pos_x p) (pos_y p) d (speed_x p) (speed_y p)
           (shooting_start_position p).

Definition set_speed (sx sy : float) (p : Player) : Player :=
  mkPlayer (state p) (pos_x p) (pos_y p) (direction p) sx sy
           (shooting_start_position p).

Definition set_shooting_start_position (c : float * float) (p : Player) : Player :=
  mkPlayer (state p) (pos_x p) (pos_y p) (direction p) (speed_x p) (speed_y p) c.

Definition set_shooting (b : bool) (g : Game) : Game :=
  mkGame (power_size g) b (screen_width g) (screen_height g).

(** A session whose [set_power_size] stores the requested value as it is. *)
Definition store_power_size (g : Game) (v : Z) : Game :=
  mkGame v (shooting g) (screen_width g) (screen_height g).

(** Modelled from the spec: [Game.set_power_size] is not in the sources; the
    spec has the session clamp the requested value to [[0, maxPower]]. *)
Definition clamp_power_size (max_power : Z) (g : Game) (v : Z) : Game :=
  mkGame (Z.max 0 (Z.min max_power v)) (shooting g) (screen_width g) (screen_height g).

(** Stand-ins for [math.radians], [math.cos] and [math.sin] that are right
    at angle 0 and undefined (NaN) elsewhere, used to evaluate the model on
    concrete inputs with [direction = 0]. *)
Definition radians_at_0 (x : float) : float := if is_zero x then x else S754_nan.
Definition cos_at_0 (x : float) : float := if is_zero x then of_int 1 else S754_nan.
Definition sin_at_0 (x : float) : float := if is_zero x then x else S754_nan.

(** ** Operations of [Player] *)

Section Player.

(** [player_width], [player_height] and [max_power_size] come from
    [src.configurations], which is not part of the sources. *)
Variables player_width player_height max_power_size : Z.

(** [math.radians], [math.cos], [math.sin] of the C library. *)
Variables math_radians math_cos math_sin : float -> float.

(** [Game.set_power_size], a method of the session, whose class is not part
    of the sources. *)
Variable set_power_size : Game -> Z -> Game.

(** [center]: [[pos_x + width // 2, pos_y + height // 2]]. *)
Definition center (p : Player) : float * float :=
  (add (pos_x p) (of_int (player_width / 2)),
   add (pos_y p) (of_int (player_height / 2))).

(** [__init__]. *)
Definition init (x y : float) : Player :=
  let p := mkPlayer IDLE x y 0 zero zero (zero, zero) in
  set_shooting_start_position (center p) p.

(** [handle_event]: the new world and the returned status. *)
Definition handle_event (w : World) (event : Event) : World * Z :=
  match event with
  | KEYDOWN key =>
      let p := player w in
      let g := game w in
      match key with
      | K_SPACE =>
          let p := set_state SHOOTING p in
          let p := set_shooting_start_position (center p) p in
          let sx := mul (mul lit_0_01 (of_int (power_size g)))
                        (math_cos (math_radians (of_int (direction p)))) in
          let p := set_speed sx (speed_y p) p in
          let sy := mul (mul lit_0_01 (of_int (power_size g)))
                        (math_sin (math_radians (of_int (direction p)))) in
          let p := set_speed (speed_x p) sy p in
          (mkWorld p g (pygame w), 1)
      | K_LEFT | K_RIGHT =>
          let p := set_state AIMING p in
          let pg := mkPygame (Some (500, 100)) (user_timer (pygame w)) in
          let pg := mkPygame (key_repeat pg) (Some 100) in
          let p :=
            match key with
            | K_RIGHT => set_direction (direction p + 5) p
            | K_LEFT => set_direction (direction p - 5) p
            | _ => p
            end in
          (mkWorld p g pg, 0)
      | K_UP | K_DOWN =>
          let p := set_state POWER p in
          let g :=
            match key with
            | K_UP =>
                if power_size g <? max_power_size
                then set_power_size g (power_size g + 100) else g
            | K_DOWN =>
                if power_size g >? 0
                then set_power_size g (power_size g - 100) else g
            | _ => g
            end in
          (mkWorld p g (pygame w), 0)
      | K_OTHER _ => (w, 0)
      end
  | _ => (w, 0)
  end.

(** The long-press loop of [update]: one pass per queued [USEREVENT]. *)
Fixpoint long_press (n : nat) (left right : bool) (d : Z) : Z :=
  match n with
  | O => d
  | S k =>
      long_press k left right
        (if left then d - 5 else if right then d + 5 else d)
  end.

(** The wall test of one axis, [pos <= size or pos >= extent], and the
    reflection [-1 * speed] it triggers. *)
Definition at_wall (pos : float) (size extent : Z) : bool :=
  leb pos (of_int size) || geb pos (of_int extent).

Definition bounce (pos : float) (size extent : Z) (speed : float) : float :=
  if at_wall pos size extent then mul (of_int (-1)) speed else speed.

(** [update]. *)
Definition update (inp : TickInput) (w : World) : World :=
  let p := player w in
  let g := game w in
  let p :=
    if (0 <? Z.of_nat (user_events inp))
    then set_direction
           (long_press (user_events inp) (held_left inp) (held_right inp)
                       (direction p)) p
    else p in
  let p := set_pos (add (pos_x p) (speed_x p)) (add (pos_y p) (speed_y p)) p in
  let g :=
    if eqb (speed_x p) zero && eqb (speed_y p) zero
    then set_shooting false g else g in
  let p := set_speed (bounce (pos_x p) player_width (screen_width g) (speed_x p))
                     (speed_y p) p in
  let p := set_speed (speed_x p)
                     (bounce (pos_y p) player_height (screen_height g) (speed_y p)) p in
  let p := set_speed (update_speed (speed_x p)) (speed_y p) p in
  let p := set_speed (speed_x p) (update_speed (speed_y p)) p in
  let p :=
    if PlayerState_eqb (state p) SHOOTING
       && (eqb (speed_x p) (speed_y p) && eqb (speed_y p) zero)
    then set_state IDLE p else p in
  mkWorld p g (pygame w).

(** [stop]. *)
Definition stop (w : World) : World :=
  let p := set_speed zero (speed_y (player w)) (player w) in
  let p := set_speed (speed_x p) zero p in
  mkWorld p (game w) (pygame w).

(** [draw]: the position it writes back.  The line, power bar and sprite it
    paints are output only. *)
Definition draw (scale_factor : float) (translation_vector : float * float)
           (w : World) : World :=
  let p := player w in
  let p := set_pos (add (mul (pos_x p) scale_factor) (fst translation_vector))
                   (pos_y p) p in
  let p := set_pos (pos_x p)
                   (add (mul (pos_y p) scale_factor) (snd translation_vector)) p in
  mkWorld p (game w) (pygame w).

(** The calls a session can make on a player, and a run of them. *)
Inductive Call : Type :=
  | CallHandleEvent (event : Event)
  | CallUpdate (inp : TickInput)
  | CallStop
  | CallDraw (scale_factor : float) (translation_vector : float * float).

Definition call (c : Call) (w : World) : World :=
  match c with
  | CallHandleEvent e => fst (handle_event w e)
  | CallUpdate inp => update inp w
  | CallStop => stop w
  | CallDraw s t => draw s t w
  end.

Fixpoint run (cs : list Call) (w : World) : World :=
  match cs with
  | [] => w
  | c :: cs' => run cs' (call c w)
  end.

(** Successive ticks, one per element of [inps]. *)
Definition updates (inps : list TickInput) (w : World) : World :=
  fold_left (fun w inp => update inp w) inps w.

(** A tick with no queued repeat event. *)
Definition idle_tick : TickInput := mkTick 0 false false.

(** The events [handle_event] acts on: a press of one of its five keys. *)
Definition handled (event : Event) : bool :=
  match event with
  | KEYDOWN (K_SPACE | K_LEFT | K_RIGHT | K_UP | K_DOWN) => true
  | _ => false
  end.

(** Equality of two floats as numbers: the same value, or two zeros
    (which Python's [==] does not tell apart). *)
Definition same_float (a b : float) : Prop :=
  a = b \/ (is_zero a = true /\ is_zero b = true).

Definition is_finite (x : float) : bool :=
  match x with
  | S754_zero _ | S754_finite _ _ _ => true
  | _ => false
  end.

(** Kinds of call, to describe runs that leave some of them out. *)
Definition is_space_press (c : Call) : bool :=
  match c with CallHandleEvent (KEYDOWN K_SPACE) => true | _ => false end.

Definition is_power_press (c : Call) : bool :=
  match c with CallHandleEvent (KEYDOWN (K_UP | K_DOWN)) => true | _ => false end.

Definition is_draw (c : Call) : bool :=
  match c with CallDraw _ _ => true | _ => false end.

(** A run with none of the calls [kind] picks out. *)
Definition without (kind : Call -> bool) (cs : list Call) : bool :=
  forallb (fun c => negb (kind c)) cs.

(** The mode a press of an aiming or power key leaves behind. *)
Definition mode_of_key (key : Key) : PlayerState :=
  match key with
  | K_LEFT | K_RIGHT => AIMING
  | _ => POWER
  end.

Definition one : float := of_int 1.

(** ** Sample data: the player of the spec's scenario at (400, 300) on an
    800 x 600 screen. *)

Definition sample_player : Player :=
  mkPlayer IDLE (of_int 400) (of_int 300) 0 zero zero (of_int 425, of_int 325).

Definition sample_game (power : Z) : Game := mkGame power false 800 600.

Definition sample_world (power : Z) : World :=
  mkWorld sample_player (sample_game power) (mkPygame None None).

(** A player in flight with the given speed. *)
Definition flying_world (sx sy : float) : World :=
  mkWorld (mkPlayer SHOOTING (of_int 400) (of_int 300) 0 sx sy (of_int 425, of_int 325))
          (mkGame 300 true 800 600) (mkPygame None None).

(** A player in flight just right of the left wall zone: x = 50.03125 with
    the 50-wide player, moving left at 1.0. *)
Definition crossing_world : World :=
  mkWorld (mkPlayer SHOOTING (binary_normalize prec emax 1601 (-5) false) (of_int 300)
                    0 (of_int (-1)) zero (of_int 425, of_int 325))
          (mkGame 300 true 800 600) (mkPygame None None).

(** ** Binary64 facts used below *)

Lemma digits2_pos_iter_xO (n m : positive) :
  Zpos (digits2_pos (Pos.iter xO m n)) = Zpos (digits2_pos m) + Zpos n.
Proof.
  revert m. induction n using Pos.peano_ind; intros m.
  - simpl. lia.
  - rewrite Pos.iter_succ. simpl digits2_pos. rewrite Pos2Z.inj_succ, IHn. lia.
Qed.

Lemma mul_neg_one (x : float) :
  valid x = true -> mul (of_int (-1)) x = opp x.
Proof.
  destruct x as [s | s | | s m e]; try reflexivity.
  unfold valid, valid_binary, bounded, canonical_mantissa.
  intros H. apply andb_prop in H. destruct H as [Hc He].
  apply Z.eqb_eq in Hc. apply Z.leb_le in He.
  unfold mul, of_int. 
  change (binary_normalize prec emax (-1) 0 false) with (S754_finite true 4503599627370496 (-52)).
  unfold SFmul.
  change (Pos.mul 4503599627370496 m) with (Pos.iter xO m 52).
  unfold binary_round_aux.
  assert (Hs : shr_fexp prec emax (Z.pos (Pos.iter xO m 52)) (-52 + e) loc_Exact
               = ({| shr_m := Zpos m; shr_r := false; shr_s := false |}, e)).
  { unfold shr_fexp, Zdigits2. rewrite digits2_pos_iter_xO.
    replace (Z.pos (digits2_pos m) + 52 + (-52 + e)) with (Z.pos (digits2_pos m) + e) by lia.
    rewrite Hc. replace (e - (-52 + e)) with 52 by lia.
    unfold shr. replace (-52 + e + 52) with e by lia.
    f_equal. }
  rewrite Hs. cbn [shr_m loc_of_shr_record round_nearest_even].
  unfold shr_fexp, Zdigits2. rewrite Hc, Z.sub_diag. cbn [shr shr_record_of_loc shr_m].
  apply Z.leb_le in He. rewrite He. reflexivity.
Qed.
  

Lemma eqb_zero (x : float) : eqb x zero = is_zero x.
Proof. destruct x as [s | s | | s m e]; try destruct s; reflexivity. Qed.

Lemma eqb_chain_zero (x y : float) :
  eqb x y && eqb y zero = is_zero x && is_zero y.
Proof.
  rewrite eqb_zero.
  destruct y as [sy | sy | | sy my ey]; cbn [is_zero];
    rewrite ?andb_false_r, ?andb_true_r; try reflexivity.
  destruct x as [sx | sx | | sx mx ex]; try destruct sx; reflexivity.
Qed.

Lemma gtb_opp_zero (x : float) : gtb (opp x) zero = ltb x zero.
Proof. destruct x as [s | s | | s m e]; try destruct s; reflexivity. Qed.

Lemma gtb_ltb_zero (x : float) : gtb x zero = true -> ltb x zero = false.
Proof. destruct x as [s | s | | s m e]; try destruct s; cbn; congruence. Qed.

Lemma update_speed_zero (s : bool) : update_speed (S754_zero s) = zero.
Proof. destruct s; reflexivity. Qed.

Lemma update_speed_cases (v : float) :
  update_speed v = zero \/
  (update_speed v = add v (speedDx (gtb v zero)) /\
   gtb (update_speed v) zero = gtb v zero).
Proof.
  unfold update_speed.
  destruct (gtb v zero) eqn:Hx;
    destruct (gtb (add v (speedDx _)) zero) eqn:Hy; cbn; auto.
Qed.

Lemma decay_zero (n : nat) : decay n zero = zero.
Proof. induction n as [| n IH]; [reflexivity | exact IH]. Qed.

Lemma decay_add (n m : nat) (v : float) : decay (n + m) v = decay m (decay n v).
Proof. revert v. induction n as [| n IH]; intros v; [reflexivity | apply IH]. Qed.

(** ** The decay rule over exact rationals *)

Lemma Qgtb_true (a b : Q) : Qgtb a b = true <-> (b < a)%Q.
Proof.
  unfold Qgtb. rewrite negb_true_iff. split; intros H.
  - apply Qnot_le_lt. intros Hle. apply Qle_bool_iff in Hle. congruence.
  - destruct (Qle_bool a b) eqn:E; [| reflexivity].
    apply Qle_bool_iff in E. exfalso. apply (Qlt_not_le _ _ H E).
Qed.

Lemma Qgtb_false (a b : Q) : Qgtb a b = false <-> (a <= b)%Q.
Proof.
  unfold Qgtb. rewrite negb_false_iff. apply Qle_bool_iff.
Qed.

Ltac q_cases :=
  repeat match goal with
  | |- context [Qgtb ?a ?b] =>
      let E := fresh "E" in
      destruct (Qgtb a b) eqn:E;
      [apply Qgtb_true in E | apply Qgtb_false in E]
  | |- context [Qle_bool ?a ?b] =>
      let E := fresh "E" in
      destruct (Qle_bool a b) eqn:E;
      [apply Qle_bool_iff in E
      | assert (b < a)%Q by
          (apply Qnot_le_lt; intros Hle; apply Qle_bool_iff in Hle; congruence);
        clear E]
  end.

Ltac q_abs :=
  first [ lra
        | rewrite Qabs_pos by lra; lra
        | rewrite Qabs_neg by lra; lra
        | change (Qabs 0) with 0%Q; lra ].

Lemma update_speed_exact_abs (v : Q) :
  (Qabs (update_speed_exact v) ==
   if Qle_bool (1 # 20) (Qabs v) then Qabs v - (1 # 20) else 0)%Q.
Proof.
  unfold update_speed_exact.
  destruct (Qlt_le_dec 0 v) as [Hv | Hv].
  - assert (Ha : (Qabs v == v)%Q) by (apply Qabs_pos; lra).
    q_cases; cbn [negb Bool.eqb]; try rewrite Ha in *; q_abs.
  - assert (Ha : (Qabs v == - v)%Q) by (apply Qabs_neg; lra).
    q_cases; cbn [negb Bool.eqb]; try rewrite Ha in *; q_abs.
Qed.

Lemma update_speed_exact_sign (v : Q) :
  Qgtb (update_speed_exact v) 0 = Qgtb v 0 \/ update_speed_exact v = 0%Q.
Proof.
  unfold update_speed_exact.
  destruct (Qgtb v 0) eqn:Hx;
    destruct (Qgtb (v + _) 0) eqn:Hy; cbn [negb Bool.eqb]; auto.
Qed.

Lemma decay_exact_zero (n : nat) (v : Q) : (v == 0)%Q -> (decay_exact n v == 0)%Q.
Proof.
  revert v. induction n as [| n IH]; intros v Hv; [exact Hv |].
  cbn [decay_exact]. apply IH.
  pose proof (update_speed_exact_abs v) as Ha.
  assert (Hz : (Qabs v == 0)%Q) by (rewrite Hv; reflexivity).
  revert Ha. q_cases; intros Ha.
  - lra.
  - destruct (Qlt_le_dec 0 (update_speed_exact v)).
    + rewrite Qabs_pos in Ha by lra. exact Ha.
    + rewrite Qabs_neg in Ha by lra. lra.
Qed.

Lemma decay_exact_within (n : nat) (v : Q) :
  (Qabs v <= inject_Z (Z.of_nat n) * (1 # 20))%Q -> (decay_exact n v == 0)%Q.
Proof.
  revert v. induction n as [| n IH]; intros v Hv.
  - change (inject_Z (Z.of_nat 0)) with 0%Q in Hv. cbn [decay_exact].
    destruct (Qlt_le_dec 0 v).
    + rewrite Qabs_pos in Hv by lra. lra.
    + rewrite Qabs_neg in Hv by lra. lra.
  - cbn [decay_exact]. apply IH.
    rewrite update_speed_exact_abs.
    rewrite Nat2Z.inj_succ, <- Z.add_1_r, inject_Z_plus in Hv.
    change (inject_Z 1) with 1%Q in Hv.
    pose proof (Qabs_nonneg v).
    assert (0 <= inject_Z (Z.of_nat n))%Q.
    { change 0%Q with (inject_Z 0). rewrite <- Zle_Qle. lia. }
    q_cases; nra.
Qed.

Lemma decay_exact_ceiling (v : Q) :
  (decay_exact (Z.to_nat (Qceiling (Qabs v / (1 # 20)))) v == 0)%Q.
Proof.
  apply decay_exact_within.
  pose proof (Qle_ceiling (Qabs v / (1 # 20))) as Hc.
  pose proof (Qabs_nonneg v) as Hn.
  assert (Hq : (0 <= Qabs v / (1 # 20))%Q).
  { apply Qle_shift_div_l; lra. }
  assert (Hz : 0 <= Qceiling (Qabs v / (1 # 20))).
  { rewrite Zle_Qle. change (inject_Z 0) with 0%Q. lra. }
  rewrite Z2Nat.id by exact Hz.
  assert (Hm : (Qabs v == Qabs v / (1 # 20) * (1 # 20))%Q) by (field; discriminate).
  lra.
Qed.

Lemma decay_exact_add (n m : nat) (v : Q) :
  decay_exact (n + m) v = decay_exact m (decay_exact n v).
Proof. revert v. induction n as [| n IH]; intros v; [reflexivity | apply IH]. Qed.

(** ** The keys of [handle_event] and the branches of [update] *)

Lemma add_zero_same (x z : float) : is_zero z = true -> same_float (add x z) x.
Proof.
  destruct z as [sz | | |]; try discriminate. intros _.
  destruct x as [sx | sx | | sx mx ex]; try (left; reflexivity).
  right. destruct sx, sz; split; reflexivity.
Qed.

Lemma same_float_trans (a b c : float) :
  same_float a b -> same_float b c -> same_float a c.
Proof.
  intros [-> | [Ha Hb]] [-> | [Hb' Hc]]; unfold same_float; auto.
Qed.

Lemma mul_zero_finite (x : float) :
  is_finite x = true -> is_zero (mul zero x) = true.
Proof. destruct x as [s | s | | s m e]; try discriminate; reflexivity. Qed.

Lemma bounce_zero (pos : float) (size extent : Z) (speed : float) :
  is_zero speed = true -> is_zero (bounce pos size extent speed) = true.
Proof.
  unfold bounce. destruct speed as [s | | |]; try discriminate. intros _.
  destruct (at_wall pos size extent); reflexivity.
Qed.

Lemma update_speed_is_zero (v : float) :
  is_zero v = true -> update_speed v = zero.
Proof.
  destruct v as [s | | |]; try discriminate. intros _. apply update_speed_zero.
Qed.

Lemma bounce_valid (pos : float) (size extent : Z) (speed : float) :
  valid speed = true ->
  bounce pos size extent speed =
  if at_wall pos size extent then opp speed else speed.
Proof.
  intros Hv. unfold bounce. destruct (at_wall pos size extent); [| reflexivity].
  apply mul_neg_one, Hv.
Qed.

Lemma flipped_not_positive (v : float) :
  gtb v zero = true -> gtb (update_speed (opp v)) zero = false.
Proof.
  intros Hv. destruct (update_speed_cases (opp v)) as [-> | [_ ->]].
  - reflexivity.
  - rewrite gtb_opp_zero. apply gtb_ltb_zero, Hv.
Qed.

Lemma flipped_not_negative (v : float) :
  ltb v zero = true -> ltb (update_speed (opp v)) zero = false.
Proof.
  intros Hv. destruct (update_speed_cases (opp v)) as [-> | [_ Hs]].
  - reflexivity.
  - apply gtb_ltb_zero. rewrite Hs, gtb_opp_zero. exact Hv.
Qed.

(** The speeds and the mode one tick leaves behind. *)
Lemma update_speed_x (inp : TickInput) (w : World) :
  speed_x (player (update inp w)) =
  update_speed (bounce (add (pos_x (player w)) (speed_x (player w)))
                       player_width (screen_width (game w)) (speed_x (player w))).
Proof.
  unfold update.
  destruct (0 <? Z.of_nat (user_events inp));
    destruct (eqb _ zero && eqb _ zero);
    destruct (PlayerState_eqb _ SHOOTING && _); reflexivity.
Qed.

Lemma update_speed_y (inp : TickInput) (w : World) :
  speed_y (player (update inp w)) =
  update_speed (bounce (add (pos_y (player w)) (speed_y (player w)))
                       player_height (screen_height (game w)) (speed_y (player w))).
Proof.
  unfold update.
  destruct (0 <? Z.of_nat (user_events inp));
    destruct (eqb _ zero && eqb _ zero);
    destruct (PlayerState_eqb _ SHOOTING && _); reflexivity.
Qed.

Lemma update_pos (inp : TickInput) (w : World) :
  pos_x (player (update inp w)) = add (pos_x (player w)) (speed_x (player w)) /\
  pos_y (player (update inp w)) = add (pos_y (player w)) (speed_y (player w)).
Proof.
  unfold update.
  destruct (0 <? Z.of_nat (user_events inp));
    destruct (eqb _ zero && eqb _ zero);
    destruct (PlayerState_eqb _ SHOOTING && _); split; reflexivity.
Qed.

Lemma update_state (inp : TickInput) (w : World) :
  state (player (update inp w)) =
  if PlayerState_eqb (state (player w)) SHOOTING
     && (is_zero (speed_x (player (update inp w)))
         && is_zero (speed_y (player (update inp w))))
  then IDLE else state (player w).
Proof.
  rewrite update_speed_x, update_speed_y.
  unfold update.
  destruct (0 <? Z.of_nat (user_events inp));
    destruct (eqb (speed_x _) zero && eqb (speed_y _) zero);
    cbn [player game set_direction set_pos set_speed set_shooting set_state
         state pos_x pos_y speed_x speed_y direction screen_width screen_height];
    rewrite eqb_chain_zero;
    destruct (PlayerState_eqb _ SHOOTING && _); reflexivity.
Qed.

Lemma PlayerState_eqb_eq (a b : PlayerState) :
  PlayerState_eqb a b = true <-> a = b.
Proof. destruct a, b; cbn; split; congruence. Qed.

(** ** Properties of the player *)

(** C1 (as amended).  Over exact rationals with step 1/20 one application of
    the decay rule lowers the magnitude by 0.05, or to 0 when it is below
    0.05, keeps the sign, and the component is 0 after [ceil(|v|/0.05)]
    applications and from then on.  In binary64 each application either
    snaps to 0 or adds the rounded step and keeps the sign; a component
    starting at 3.0 strictly loses magnitude on each of its first 61 ticks,
    is still 2.29e-15 after 60 ticks and is exactly 0.0 from tick 61 on. *)
Theorem C1_decay_reaches_zero :
  (forall v : Q,
      (Qabs (update_speed_exact v) ==
       if Qle_bool (1 # 20) (Qabs v) then Qabs v - (1 # 20) else 0)%Q /\
      (Qgtb (update_speed_exact v) 0 = Qgtb v 0 \/ update_speed_exact v = 0%Q) /\
      forall k : nat,
        (decay_exact (Z.to_nat (Qceiling (Qabs v / (1 # 20))) + k) v == 0)%Q) /\
  (forall v : float,
      update_speed v = zero \/
      (update_speed v = add v (speedDx (gtb v zero)) /\
       gtb (update_speed v) zero = gtb v zero)) /\
  forallb (fun k => ltb (abs (decay (S k) (of_int 3))) (abs (decay k (of_int 3))))
          (seq 0 61) = true /\
  decay 60 (of_int 3) = S754_finite false 5805421394657280 (-101) /\
  forall k : nat, decay (61 + k) (of_int 3) = zero.
Proof.
  split; [| split; [| split; [| split]]].
  - intros v. split; [apply update_speed_exact_abs |].
    split; [apply update_speed_exact_sign |].
    intros k. rewrite decay_exact_add.
    apply decay_exact_zero, decay_exact_ceiling.
  - apply update_speed_cases.
  - vm_compute. reflexivity.
  - vm_compute. reflexivity.
  - intros k. rewrite decay_add.
    replace (decay 61 (of_int 3)) with zero by (vm_compute; reflexivity).
    apply decay_zero.
Qed.

(** C2.  A space press enters SHOOTING, records the centre as the launch
    origin, sets the velocity to 0.01 * power_size * (cos, sin) of the
    direction in degrees and returns 1; with direction 0 and power 300 the
    velocity is (3.0, 0.0). *)
Theorem C2_space_launches (w : World) :
  let r := handle_event w (KEYDOWN K_SPACE) in
  let p := player w in
  let p' := player (fst r) in
  state p' = SHOOTING /\
  shooting_start_position p' = center p /\
  speed_x p' = mul (mul lit_0_01 (of_int (power_size (game w))))
                   (math_cos (math_radians (of_int (direction p)))) /\
  speed_y p' = mul (mul lit_0_01 (of_int (power_size (game w))))
                   (math_sin (math_radians (of_int (direction p)))) /\
  snd r = 1 /\
  (direction p = 0 -> power_size (game w) = 300 ->
   math_cos (math_radians zero) = of_int 1 ->
   math_sin (math_radians zero) = zero ->
   speed_x p' = of_int 3 /\ speed_y p' = zero).
Proof.
  cbn. do 5 (split; [reflexivity |]).
  intros Hd Hp Hc Hs. rewrite Hd, Hp. change (of_int 0) with zero.
  rewrite Hc, Hs. split; reflexivity.
Qed.

(** C3.  A tick moves the mode to IDLE from another mode exactly when the
    mode was SHOOTING and both velocity components are 0 after the decay of
    that tick; [handle_event], [stop] and [draw] never move it to IDLE. *)
Theorem C3_idle_only_after_flight :
  (forall (inp : TickInput) (w : World),
      (state (player w) <> IDLE /\ state (player (update inp w)) = IDLE) <->
      (state (player w) = SHOOTING /\
       is_zero (speed_x (player (update inp w))) = true /\
       is_zero (speed_y (player (update inp w))) = true)) /\
  (forall (w : World) (e : Event),
      state (player (fst (handle_event w e))) = IDLE -> state (player w) = IDLE) /\
  (forall w : World, state (player (stop w)) = state (player w)) /\
  (forall (s : float) (t : float * float) (w : World),
      state (player (draw s t w)) = state (player w)).
Proof.
  split; [| split; [| split]].
  - intros inp w. rewrite update_state.
    destruct (PlayerState_eqb (state (player w)) SHOOTING) eqn:Hs.
    + apply PlayerState_eqb_eq in Hs. rewrite Hs. cbn [andb].
      destruct (is_zero (speed_x _)); destruct (is_zero (speed_y _)); cbn [andb];
        split; intros H; repeat split; try congruence; try tauto;
        destruct H as (_ & H1 & H2); discriminate.
    + cbn [andb]. split.
      * intros [Hn He]. contradiction.
      * intros (He & _). rewrite He in Hs. discriminate.
  - intros w e. destruct e as [k | k | | n]; try (cbn; tauto).
    destruct k; cbn; try discriminate; tauto.
  - reflexivity.
  - reflexivity.
Qed.

(** One tick at the wall: when the integrated x position is at or below the
    player's width or at or above the screen's width, the x speed is negated
    once before the decay, so a positive speed comes out not positive and a
    negative one not negative; otherwise it is only decayed.  The same for y
    with the heights. *)
Lemma wall_bounce_tick (inp : TickInput) (w : World) :
  let p := player w in
  let x' := add (pos_x p) (speed_x p) in
  let y' := add (pos_y p) (speed_y p) in
  valid (speed_x p) = true -> valid (speed_y p) = true ->
  speed_x (player (update inp w)) =
    (if leb x' (of_int player_width) || geb x' (of_int (screen_width (game w)))
     then update_speed (opp (speed_x p)) else update_speed (speed_x p)) /\
  speed_y (player (update inp w)) =
    (if leb y' (of_int player_height) || geb y' (of_int (screen_height (game w)))
     then update_speed (opp (speed_y p)) else update_speed (speed_y p)) /\
  (leb x' (of_int player_width) = true \/
   geb x' (of_int (screen_width (game w))) = true ->
   (gtb (speed_x p) zero = true -> gtb (speed_x (player (update inp w))) zero = false) /\
   (ltb (speed_x p) zero = true -> ltb (speed_x (player (update inp w))) zero = false)) /\
  (leb y' (of_int player_height) = true \/
   geb y' (of_int (screen_height (game w))) = true ->
   (gtb (speed_y p) zero = true -> gtb (speed_y (player (update inp w))) zero = false) /\
   (ltb (speed_y p) zero = true -> ltb (speed_y (player (update inp w))) zero = false)).
Proof.
  intros p x' y' Hvx Hvy.
  rewrite update_speed_x, update_speed_y.
  rewrite (bounce_valid _ _ _ _ Hvx), (bounce_valid _ _ _ _ Hvy).
  unfold at_wall. fold p x' y'.
  split; [destruct (_ || _); reflexivity |].
  split; [destruct (leb y' _ || _); reflexivity |].
  split.
  - intros Hw. apply orb_true_iff in Hw. rewrite Hw.
    split; intros Hs.
    + apply flipped_not_positive, Hs.
    + apply flipped_not_negative, Hs.
  - intros Hw. apply orb_true_iff in Hw. rewrite Hw.
    split; intros Hs.
    + apply flipped_not_positive, Hs.
    + apply flipped_not_negative, Hs.
Qed.

(** C5 (as amended).  An up or down press enters POWER and returns 0; up asks
    the session for [power_size + 100] only while [power_size < max_power_size],
    down asks for [power_size - 100] only while [power_size > 0], and at the
    bound no request is made.  The value asked for is not clamped by the
    player; with a session whose setter keeps the power within
    [[0, max_power_size]] a power in that range stays in it. *)
Theorem C5_power_keys (w : World) (key : Key) :
  key = K_UP \/ key = K_DOWN ->
  let r := handle_event w (KEYDOWN key) in
  let g := game w in
  state (player (fst r)) = POWER /\
  snd r = 0 /\
  game (fst r) =
    (if match key with K_UP => power_size g <? max_power_size | _ => power_size g >? 0 end
     then set_power_size g (power_size g + match key with K_UP => 100 | _ => -100 end)
     else g) /\
  ((forall (g0 : Game) (v : Z), 0 <= power_size (set_power_size g0 v) <= max_power_size) ->
   0 <= power_size g <= max_power_size ->
   0 <= power_size (game (fst r)) <= max_power_size).
Proof.
  intros [-> | ->]; cbn.
  - split; [reflexivity |]. split; [reflexivity |]. split; [reflexivity |].
    intros Hset Hg. destruct (power_size (game w) <? max_power_size); [apply Hset | exact Hg].
  - split; [reflexivity |]. split; [reflexivity |]. split; [reflexivity |].
    intros Hset Hg. destruct (power_size (game w) >? 0); [apply Hset | exact Hg].
Qed.

(** C6.  [draw] with scale factor [s] and translation [t] stores
    [pos * s + t] as the player's position; a second [draw] with the same
    transform applies it to the stored result again, and the next tick
    integrates from the stored result. *)
Theorem C6_draw_overwrites_position (s : float) (t : float * float)
        (inp : TickInput) (w : World) :
  let p := player w in
  let x1 := add (mul (pos_x p) s) (fst t) in
  let y1 := add (mul (pos_y p) s) (snd t) in
  pos_x (player (draw s t w)) = x1 /\
  pos_y (player (draw s t w)) = y1 /\
  pos_x (player (draw s t (draw s t w))) = add (mul x1 s) (fst t) /\
  pos_y (player (draw s t (draw s t w))) = add (mul y1 s) (snd t) /\
  pos_x (player (update inp (draw s t w))) = add x1 (speed_x p) /\
  pos_y (player (update inp (draw s t w))) = add y1 (speed_y p).
Proof.
  cbn zeta. do 4 (split; [reflexivity |]).
  apply (update_pos inp (draw s t w)).
Qed.

Lemma long_press_total (n : nat) (left right : bool) (d : Z) :
  long_press n left right d =
  d + Z.of_nat n * (if left then -5 else if right then 5 else 0).
Proof.
  revert d. induction n as [| n IH]; intros d.
  - cbn. lia.
  - cbn [long_press]. rewrite IH. destruct left, right; lia.
Qed.

Lemma update_direction (inp : TickInput) (w : World) :
  direction (player (update inp w)) =
  direction (player w) +
  Z.of_nat (user_events inp) *
  (if held_left inp then -5 else if held_right inp then 5 else 0).
Proof.
  unfold update.
  destruct (0 <? Z.of_nat (user_events inp)) eqn:Hn;
    destruct (eqb _ zero && eqb _ zero);
    destruct (PlayerState_eqb _ SHOOTING && _);
    cbn [player direction set_direction set_pos set_speed set_state];
    try apply long_press_total.
  all: apply Z.ltb_ge in Hn; replace (Z.of_nat (user_events inp)) with 0 by lia; lia.
Qed.

Lemma call_direction_step (c : Call) (w : World) :
  exists k : Z, direction (player (call c w)) = direction (player w) + 5 * k.
Proof.
  destruct c as [e | inp | | s t].
  - destruct e as [k | k | | n]; try (exists 0; cbn; lia).
    destruct k; cbn;
      first [ exists 0; lia | exists 1; lia | exists (-1); lia ].
  - cbn [call]. rewrite update_direction.
    exists (Z.of_nat (user_events inp) *
            (if held_left inp then -1 else if held_right inp then 1 else 0)).
    destruct (held_left inp), (held_right inp); lia.
  - exists 0. cbn. lia.
  - exists 0. cbn. lia.
Qed.

Lemma run_direction_multiple (cs : list Call) (w : World) :
  (5 | direction (player w)) -> (5 | direction (player (run cs w))).
Proof.
  revert w. induction cs as [| c cs IH]; intros w Hw; [exact Hw |].
  cbn [run]. apply IH.
  destruct (call_direction_step c w) as [k ->].
  apply Z.divide_add_r; [exact Hw | apply Z.divide_factor_l].
Qed.

(** C7.  A right press adds 5 to the direction and a left press subtracts 5;
    a tick adds -5 (left held) or +5 (right held) once per queued repeat
    event; every call keeps the direction a multiple of 5, so it is one from
    construction on; three left presses from 0 give -15. *)
Theorem C7_direction_steps :
  (forall w : World,
      direction (player (fst (handle_event w (KEYDOWN K_RIGHT)))) =
      direction (player w) + 5) /\
  (forall w : World,
      direction (player (fst (handle_event w (KEYDOWN K_LEFT)))) =
      direction (player w) - 5) /\
  (forall (inp : TickInput) (w : World),
      direction (player (update inp w)) =
      direction (player w) +
      Z.of_nat (user_events inp) *
      (if held_left inp then -5 else if held_right inp then 5 else 0)) /\
  (forall (cs : list Call) (w : World),
      (5 | direction (player w)) -> (5 | direction (player (run cs w)))) /\
  (forall (x y : float) (g : Game) (pg : Pygame) (cs : list Call),
      (5 | direction (player (run cs (mkWorld (init x y) g pg))))) /\
  (forall w : World,
      direction (player w) = 0 ->
      direction (player (run [CallHandleEvent (KEYDOWN K_LEFT);
                              CallHandleEvent (KEYDOWN K_LEFT);
                              CallHandleEvent (KEYDOWN K_LEFT)] w)) = -15).
Proof.
  split; [reflexivity |]. split; [reflexivity |].
  split; [apply update_direction |].
  split; [apply run_direction_multiple |].
  split.
  - intros x y g pg cs. apply run_direction_multiple. cbn. apply Z.divide_0_r.
  - intros w Hw. cbn. lia.
Qed.

(** C8 (as amended).  A space press sets the mode to SHOOTING whatever the
    launch velocity is, and with power 0 and finite cosine and sine that
    velocity is (0, 0).  While the mode is SHOOTING a tick moves it to IDLE
    when both components are 0 after the decay and leaves it SHOOTING
    otherwise. *)
Theorem C8_launched_mode :
  (forall w : World,
      state (player (fst (handle_event w (KEYDOWN K_SPACE)))) = SHOOTING) /\
  (forall w : World,
      power_size (game w) = 0 ->
      is_finite (math_cos (math_radians (of_int (direction (player w))))) = true ->
      is_finite (math_sin (math_radians (of_int (direction (player w))))) = true ->
      let p' := player (fst (handle_event w (KEYDOWN K_SPACE))) in
      state p' = SHOOTING /\
      is_zero (speed_x p') = true /\ is_zero (speed_y p') = true) /\
  (forall (inp : TickInput) (w : World),
      state (player w) = SHOOTING ->
      state (player (update inp w)) =
      if is_zero (speed_x (player (update inp w)))
         && is_zero (speed_y (player (update inp w)))
      then IDLE else SHOOTING).
Proof.
  split; [reflexivity |]. split.
  - intros w Hp Hc Hs. cbn. rewrite Hp.
    split; [reflexivity |].
    change (mul lit_0_01 (of_int 0)) with zero.
    split; apply mul_zero_finite; assumption.
  - intros inp w Hs. rewrite update_state, Hs. reflexivity.
Qed.

(** C9.  An event that is not a press of space, left, right, up or down
    leaves the world as it is and returns 0; the result is 1 exactly for a
    space press. *)
Theorem C9_other_events_ignored (w : World) (e : Event) :
  (handled e = false -> handle_event w e = (w, 0)) /\
  (snd (handle_event w e) = 1 <-> e = KEYDOWN K_SPACE).
Proof.
  split.
  - destruct e as [k | k | | n]; try reflexivity.
    destruct k; cbn; try discriminate. reflexivity.
  - destruct e as [k | k | | n]; cbn; try (split; discriminate).
    destruct k; cbn; split; try discriminate; reflexivity.
Qed.

Lemma update_keeps_rest (inp : TickInput) (w : World) :
  is_zero (speed_x (player w)) = true ->
  is_zero (speed_y (player w)) = true ->
  speed_x (player (update inp w)) = zero /\
  speed_y (player (update inp w)) = zero /\
  same_float (pos_x (player (update inp w))) (pos_x (player w)) /\
  same_float (pos_y (player (update inp w))) (pos_y (player w)).
Proof.
  intros Hx Hy. rewrite update_speed_x, update_speed_y.
  destruct (update_pos inp w) as [-> ->].
  split; [apply update_speed_is_zero, bounce_zero, Hx |].
  split; [apply update_speed_is_zero, bounce_zero, Hy |].
  split; apply add_zero_same; assumption.
Qed.

(** C10.  [update_speed] maps a zero to 0, so a player whose velocity is
    (0, 0) has velocity (0, 0) after any number of ticks, and its position
    is the same number after them. *)
Theorem C10_zero_fixed_point :
  (forall s : bool, update_speed (S754_zero s) = zero) /\
  (forall (inps : list TickInput) (w : World),
      is_zero (speed_x (player w)) = true ->
      is_zero (speed_y (player w)) = true ->
      is_zero (speed_x (player (updates inps w))) = true /\
      is_zero (speed_y (player (updates inps w))) = true /\
      same_float (pos_x (player (updates inps w))) (pos_x (player w)) /\
      same_float (pos_y (player (updates inps w))) (pos_y (player w))).
Proof.
  split; [apply update_speed_zero |].
  intros inps. induction inps as [| inp inps IH]; intros w Hx Hy.
  - cbn. repeat split; try assumption; left; reflexivity.
  - destruct (update_keeps_rest inp w Hx Hy) as (Hx1 & Hy1 & Hpx & Hpy).
    assert (Hx2 : is_zero (speed_x (player (update inp w))) = true)
      by (rewrite Hx1; reflexivity).
    assert (Hy2 : is_zero (speed_y (player (update inp w))) = true)
      by (rewrite Hy1; reflexivity).
    destruct (IH (update inp w) Hx2 Hy2) as (Ha & Hb & Hc & Hd).
    unfold updates in *. cbn [fold_left].
    split; [exact Ha |]. split; [exact Hb |].
    split; [exact (same_float_trans _ _ _ Hc Hpx) | exact (same_float_trans _ _ _ Hd Hpy)].
Qed.

(** ** Further properties of the operations *)

Lemma update_shooting (inp : TickInput) (w : World) :
  shooting (game (update inp w)) =
  if is_zero (speed_x (player w)) && is_zero (speed_y (player w))
  then false else shooting (game w).
Proof.
  unfold update.
  destruct (0 <? Z.of_nat (user_events inp));
    cbn [player game set_direction set_pos speed_x speed_y];
    rewrite !eqb_zero;
    destruct (is_zero (speed_x (player w)) && is_zero (speed_y (player w)));
    reflexivity.
Qed.

Lemma update_game_rest (inp : TickInput) (w : World) :
  power_size (game (update inp w)) = power_size (game w) /\
  screen_width (game (update inp w)) = screen_width (game w) /\
  screen_height (game (update inp w)) = screen_height (game w) /\
  pygame (update inp w) = pygame w /\
  shooting_start_position (player (update inp w)) =
  shooting_start_position (player w).
Proof.
  unfold update.
  destruct (0 <? Z.of_nat (user_events inp));
    destruct (eqb _ zero && eqb _ zero);
    destruct (PlayerState_eqb _ SHOOTING && _); repeat split; reflexivity.
Qed.

(** X1.  [stop] leaves the mode alone: a stopped flight is still SHOOTING,
    and it is the next tick that ends it, with velocity (0, 0), the
    in-flight flag cleared and the position where it was. *)
Theorem stop_then_tick_settles (inp : TickInput) (w : World) :
  state (player w) = SHOOTING ->
  let w' := update inp (stop w) in
  state (player (stop w)) = SHOOTING /\
  state (player w') = IDLE /\
  speed_x (player w') = zero /\ speed_y (player w') = zero /\
  shooting (game w') = false /\
  same_float (pos_x (player w')) (pos_x (player w)) /\
  same_float (pos_y (player w')) (pos_y (player w)).
Proof.
  intros Hs w'.
  assert (Hx : is_zero (speed_x (player (stop w))) = true) by reflexivity.
  assert (Hy : is_zero (speed_y (player (stop w))) = true) by reflexivity.
  destruct (update_keeps_rest inp (stop w) Hx Hy) as (Hsx & Hsy & Hpx & Hpy).
  split; [exact Hs |].
  split.
  { unfold w'. rewrite update_state, Hsx, Hsy.
    change (state (player (stop w))) with (state (player w)). rewrite Hs. reflexivity. }
  split; [exact Hsx |]. split; [exact Hsy |].
  split; [unfold w'; rewrite update_shooting; reflexivity |].
  split; [exact Hpx | exact Hpy].
Qed.

(** X2.  The in-flight flag of the game lags the mode by one tick: on the
    tick that ends a flight that was still moving the flag keeps its value,
    and the following tick clears it. *)
Theorem shooting_flag_clears_a_tick_late (inp1 inp2 : TickInput) (w : World) :
  state (player w) = SHOOTING ->
  is_zero (speed_x (player w)) && is_zero (speed_y (player w)) = false ->
  state (player (update inp1 w)) = IDLE ->
  shooting (game (update inp1 w)) = shooting (game w) /\
  shooting (game (update inp2 (update inp1 w))) = false.
Proof.
  intros Hs Hmove Hend. split.
  - rewrite update_shooting, Hmove. reflexivity.
  - rewrite update_shooting. rewrite update_state, Hs in Hend. cbn [PlayerState_eqb andb] in Hend.
    destruct (is_zero (speed_x (player (update inp1 w)))
              && is_zero (speed_y (player (update inp1 w)))); [reflexivity | discriminate].
Qed.

Lemma updates_keep_other_modes (inps : list TickInput) (w : World) :
  state (player w) <> SHOOTING ->
  state (player (updates inps w)) = state (player w).
Proof.
  revert w. induction inps as [| inp inps IH]; intros w Hs; [reflexivity |].
  assert (Hu : state (player (update inp w)) = state (player w)).
  { rewrite update_state.
    destruct (PlayerState_eqb (state (player w)) SHOOTING) eqn:E; [| reflexivity].
    apply PlayerState_eqb_eq in E. contradiction. }
  unfold updates in *. cbn [fold_left]. rewrite IH; [exact Hu |].
  rewrite Hu. exact Hs.
Qed.

(** X3.  A press of left, right, up or down replaces the mode whatever it
    was, a flight in progress included, and no number of ticks moves the
    mode on from there: the abandoned flight never reaches IDLE. *)
Theorem key_during_flight_abandons_it (key : Key) (inps : list TickInput) (w : World) :
  key = K_LEFT \/ key = K_RIGHT \/ key = K_UP \/ key = K_DOWN ->
  state (player (updates inps (fst (handle_event w (KEYDOWN key))))) = mode_of_key key /\
  state (player (updates inps (fst (handle_event w (KEYDOWN key))))) <> IDLE.
Proof.
  intros Hk.
  assert (H1 : state (player (fst (handle_event w (KEYDOWN key)))) = mode_of_key key).
  { destruct Hk as [-> | [-> | [-> | ->]]]; reflexivity. }
  assert (H2 : mode_of_key key <> SHOOTING /\ mode_of_key key <> IDLE).
  { destruct Hk as [-> | [-> | [-> | ->]]]; split; discriminate. }
  rewrite updates_keep_other_modes; rewrite H1; tauto.
Qed.

Lemma update_speed_keeps_negative (v : float) :
  ltb (update_speed v) zero = true -> ltb v zero = true.
Proof.
  destruct (update_speed_cases v) as [-> | [He Hs]]; [discriminate |].
  intros Hn.
  destruct v as [s | s | | s m e].
  - rewrite update_speed_zero in Hn. discriminate.
  - destruct s; [reflexivity | ]. cbn in Hn. discriminate.
  - cbn in Hn. discriminate.
  - destruct s; [reflexivity |].
    assert (Hp : gtb (update_speed (S754_finite false m e)) zero = true)
      by (rewrite Hs; reflexivity).
    apply gtb_ltb_zero in Hp. congruence.
Qed.

Lemma update_speed_keeps_positive (v : float) :
  gtb (update_speed v) zero = true -> gtb v zero = true.
Proof.
  destruct (update_speed_cases v) as [-> | [_ ->]]; [discriminate | intros H; exact H].
Qed.

(** X4.  However many times the decay rule is applied to any binary64 value,
    the result is positive only if the start was, and negative only if the
    start was: the rule never carries a speed across zero. *)
Theorem decay_keeps_sign (n : nat) (v : float) :
  (gtb (decay n v) zero = true -> gtb v zero = true) /\
  (ltb (decay n v) zero = true -> ltb v zero = true).
Proof.
  revert v. induction n as [| n IH]; intros v; [split; intros H; exact H |].
  cbn [decay]. destruct (IH (update_speed v)) as [Hp Hn]. split; intros H.
  - apply update_speed_keeps_positive, Hp, H.
  - apply update_speed_keeps_negative, Hn, H.
Qed.

Lemma call_keeps_origin (c : Call) (w : World) :
  is_space_press c = false ->
  shooting_start_position (player (call c w)) = shooting_start_position (player w).
Proof.
  destruct c as [e | inp | | sc t]; intros Hc.
  - destruct e as [k | k | | n]; try reflexivity.
    destruct k; try reflexivity. discriminate.
  - apply update_game_rest.
  - reflexivity.
  - reflexivity.
Qed.

Lemma run_keeps_origin (cs : list Call) (w : World) :
  without is_space_press cs = true ->
  shooting_start_position (player (run cs w)) = shooting_start_position (player w).
Proof.
  revert w. induction cs as [| c cs IH]; intros w Hcs; [reflexivity |].
  cbn in Hcs. apply andb_prop in Hcs. destruct Hcs as [Hc Hcs].
  apply negb_true_iff in Hc.
  cbn [run]. rewrite (IH _ Hcs). apply call_keeps_origin, Hc.
Qed.

(** X5.  The launch origin is written by a space press only: through any
    run of calls with no further space press, ticks and draws included, it
    stays the centre the player had when space was pressed. *)
Theorem launch_origin_persists (cs : list Call) (w : World) :
  without is_space_press cs = true ->
  shooting_start_position
    (player (run cs (fst (handle_event w (KEYDOWN K_SPACE))))) =
  center (player w).
Proof.
  intros Hcs. rewrite (run_keeps_origin _ _ Hcs). reflexivity.
Qed.

Lemma call_keeps_armed (c : Call) (w : World) :
  key_repeat (pygame w) = Some (500, 100) ->
  user_timer (pygame w) = Some 100 ->
  key_repeat (pygame (call c w)) = Some (500, 100) /\
  user_timer (pygame (call c w)) = Some 100.
Proof.
  intros Hr Ht. destruct c as [e | inp | | sc t].
  - destruct e as [k | k | | n]; try (split; assumption).
    destruct k; cbn; split; auto.
  - cbn [call]. destruct (update_game_rest inp w) as (_ & _ & _ & -> & _).
    split; assumption.
  - split; assumption.
  - split; assumption.
Qed.

(** X6.  A left or right press arms the key repeat (500, 100) and the
    100 ms repeat timer, and no call on the player ever disarms them:
    they stay armed through every later run of calls. *)
Theorem repeat_timer_stays_armed (key : Key) (cs : list Call) (w : World) :
  key = K_LEFT \/ key = K_RIGHT ->
  let w' := run cs (fst (handle_event w (KEYDOWN key))) in
  key_repeat (pygame w') = Some (500, 100) /\
  user_timer (pygame w') = Some 100.
Proof.
  intros Hk.
  assert (H0 : key_repeat (pygame (fst (handle_event w (KEYDOWN key)))) = Some (500, 100) /\
               user_timer (pygame (fst (handle_event w (KEYDOWN key)))) = Some 100).
  { destruct Hk as [-> | ->]; split; reflexivity. }
  generalize dependent (fst (handle_event w (KEYDOWN key))).
  induction cs as [| c cs IH]; intros w0 [Hr Ht]; [split; assumption |].
  cbn [run]. apply IH. apply call_keeps_armed; assumption.
Qed.

Lemma call_keeps_rest (c : Call) (w : World) :
  is_space_press c = false ->
  is_zero (speed_x (player w)) = true ->
  is_zero (speed_y (player w)) = true ->
  is_zero (speed_x (player (call c w))) = true /\
  is_zero (speed_y (player (call c w))) = true /\
  (is_draw c = false ->
   same_float (pos_x (player (call c w))) (pos_x (player w)) /\
   same_float (pos_y (player (call c w))) (pos_y (player w))).
Proof.
  intros Hc Hx Hy. destruct c as [e | inp | | sc t].
  - assert (He : speed_x (player (fst (handle_event w e))) = speed_x (player w) /\
                 speed_y (player (fst (handle_event w e))) = speed_y (player w) /\
                 pos_x (player (fst (handle_event w e))) = pos_x (player w) /\
                 pos_y (player (fst (handle_event w e))) = pos_y (player w)).
    { destruct e as [k | k | | n]; try (repeat split; reflexivity).
      destruct k; try (repeat split; reflexivity). discriminate. }
    cbn [call]. destruct He as (-> & -> & -> & ->).
    repeat split; try assumption; left; reflexivity.
  - cbn [call]. destruct (update_keeps_rest inp w Hx Hy) as (-> & -> & Hpx & Hpy).
    repeat split; assumption.
  - repeat split; left; reflexivity.
  - split; [exact Hx |]. split; [exact Hy |]. discriminate.
Qed.

(** X7.  Only a space press gives the player a velocity: through any run of
    calls without one, a player at rest stays at rest, and if the run has
    no draw either its position is the same number at the end. *)
Theorem only_space_sets_velocity (cs : list Call) (w : World) :
  without is_space_press cs = true ->
  is_zero (speed_x (player w)) = true ->
  is_zero (speed_y (player w)) = true ->
  is_zero (speed_x (player (run cs w))) = true /\
  is_zero (speed_y (player (run cs w))) = true /\
  (without is_draw cs = true ->
   same_float (pos_x (player (run cs w))) (pos_x (player w)) /\
   same_float (pos_y (player (run cs w))) (pos_y (player w))).
Proof.
  revert w. induction cs as [| c cs IH]; intros w Hcs Hx Hy.
  - repeat split; try assumption; left; reflexivity.
  - cbn in Hcs. apply andb_prop in Hcs. destruct Hcs as [Hc Hcs].
    apply negb_true_iff in Hc.
    destruct (call_keeps_rest c w Hc Hx Hy) as (Hx1 & Hy1 & Hp1).
    destruct (IH (call c w) Hcs Hx1 Hy1) as (Hx2 & Hy2 & Hp2).
    cbn [run]. split; [exact Hx2 |]. split; [exact Hy2 |].
    intros Hd. cbn in Hd. apply andb_prop in Hd. destruct Hd as [Hd Hds].
    apply negb_true_iff in Hd.
    destruct (Hp1 Hd) as [Ha Hb]. destruct (Hp2 Hds) as [Ha' Hb'].
    split; eapply same_float_trans; eassumption.
Qed.

Lemma call_keeps_power (c : Call) (w : World) :
  is_power_press c = false ->
  power_size (game (call c w)) = power_size (game w) /\
  screen_width (game (call c w)) = screen_width (game w) /\
  screen_height (game (call c w)) = screen_height (game w).
Proof.
  intros Hc. destruct c as [e | inp | | sc t].
  - destruct e as [k | k | | n]; try (repeat split; reflexivity).
    destruct k; try (repeat split; reflexivity); discriminate.
  - cbn [call]. destruct (update_game_rest inp w) as (-> & -> & -> & _).
    repeat split; reflexivity.
  - repeat split; reflexivity.
  - repeat split; reflexivity.
Qed.

(** X8.  Only an up or down press reaches the session's power: through any
    run of calls without one, whatever [set_power_size] does, the power
    and the screen size of the game are what they were. *)
Theorem only_power_keys_touch_power (cs : list Call) (w : World) :
  without is_power_press cs = true ->
  power_size (game (run cs w)) = power_size (game w) /\
  screen_width (game (run cs w)) = screen_width (game w) /\
  screen_height (game (run cs w)) = screen_height (game w).
Proof.
  revert w. induction cs as [| c cs IH]; intros w Hcs.
  - repeat split; reflexivity.
  - cbn in Hcs. apply andb_prop in Hcs. destruct Hcs as [Hc Hcs].
    apply negb_true_iff in Hc.
    destruct (call_keeps_power c w Hc) as (H1 & H2 & H3).
    destruct (IH (call c w) Hcs) as (H4 & H5 & H6).
    cbn [run]. rewrite H4, H5, H6. repeat split; assumption.
Qed.

(** X9.  When the power and [max_power_size] are multiples of 100 and the
    power lies in [[0, max_power_size]], the guards of the up and down keys
    suffice: the press either leaves the game alone or asks the session for
    a multiple of 100 inside that range. *)
Theorem aligned_power_request_in_range (key : Key) (w : World) :
  key = K_UP \/ key = K_DOWN ->
  (100 | power_size (game w)) -> (100 | max_power_size) ->
  0 <= power_size (game w) <= max_power_size ->
  game (fst (handle_event w (KEYDOWN key))) = game w \/
  exists v : Z,
    0 <= v <= max_power_size /\ (100 | v) /\
    Z.abs (v - power_size (game w)) = 100 /\
    game (fst (handle_event w (KEYDOWN key))) = set_power_size (game w) v.
Proof.
  intros Hk [a Ha] [b Hb] Hr.
  destruct Hk as [-> | ->]; cbn.
  - destruct (power_size (game w) <? max_power_size) eqn:E; [| left; reflexivity].
    apply Z.ltb_lt in E. right. exists (power_size (game w) + 100).
    split; [lia |]. split; [exists (a + 1); lia |]. split; [lia | reflexivity].
  - destruct (power_size (game w) >? 0) eqn:E; [| left; reflexivity].
    apply Z.gtb_lt in E. right. exists (power_size (game w) - 100).
    split; [lia |]. split; [exists (a - 1); lia |]. split; [lia | reflexivity].
Qed.

(** X10.  The guards do not clamp: from a power strictly between
    [max_power_size - 100] and [max_power_size] an up press asks the session
    for a value above [max_power_size], and from a power strictly between 0
    and 100 a down press asks for a negative one. *)
Theorem unaligned_power_request_out_of_range (w : World) :
  (max_power_size - 100 < power_size (game w) < max_power_size ->
   game (fst (handle_event w (KEYDOWN K_UP))) =
     set_power_size (game w) (power_size (game w) + 100) /\
   max_power_size < power_size (game w) + 100) /\
  (0 < power_size (game w) < 100 ->
   game (fst (handle_event w (KEYDOWN K_DOWN))) =
     set_power_size (game w) (power_size (game w) - 100) /\
   power_size (game w) - 100 < 0).
Proof.
  split; intros H; cbn.
  - replace (power_size (game w) <? max_power_size) with true
      by (symmetry; apply Z.ltb_lt; lia).
    split; [reflexivity | lia].
  - replace (power_size (game w) >? 0) with true
      by (symmetry; apply Z.gtb_lt; lia).
    split; [reflexivity | lia].
Qed.

(** X11.  A launch with power 0 and finite cosine and sine is over on the
    first tick: the mode is IDLE again and the position is the same number
    as before the launch. *)
Theorem zero_power_launch_ends_at_once (inp : TickInput) (w : World) :
  power_size (game w) = 0 ->
  is_finite (math_cos (math_radians (of_int (direction (player w))))) = true ->
  is_finite (math_sin (math_radians (of_int (direction (player w))))) = true ->
  let w' := update inp (fst (handle_event w (KEYDOWN K_SPACE))) in
  state (player w') = IDLE /\
  same_float (pos_x (player w')) (pos_x (player w)) /\
  same_float (pos_y (player w')) (pos_y (player w)).
Proof.
  intros Hp Hc Hs w'.
  set (w1 := fst (handle_event w (KEYDOWN K_SPACE))).
  assert (Hz : is_zero (speed_x (player w1)) = true /\ is_zero (speed_y (player w1)) = true).
  { unfold w1. cbn. rewrite Hp. change (mul lit_0_01 (of_int 0)) with zero.
    split; apply mul_zero_finite; assumption. }
  destruct Hz as [Hx Hy].
  destruct (update_keeps_rest inp w1 Hx Hy) as (Hsx & Hsy & Hpx & Hpy).
  split.
  - unfold w'. fold w1. rewrite update_state, Hsx, Hsy. reflexivity.
  - split; [exact Hpx | exact Hpy].
Qed.

(** ** Rounding never changes the side of zero *)

Lemma shr_1_nonneg (mrs : shr_record) :
  0 <= shr_m mrs -> 0 <= shr_m (shr_1 mrs).
Proof.
  destruct mrs as [m r s]. destruct m as [| p | p]; cbn; intros H.
  - lia.
  - destruct p; cbn; lia.
  - lia.
Qed.

Lemma iter_pos_shr_1_nonneg (p : positive) (mrs : shr_record) :
  0 <= shr_m mrs -> 0 <= shr_m (iter_pos shr_1 p mrs).
Proof.
  revert mrs. induction p as [p IH | p IH |]; intros mrs H; cbn [iter_pos].
  - apply IH, IH, shr_1_nonneg, H.
  - apply IH, IH, H.
  - apply shr_1_nonneg, H.
Qed.

Lemma shr_fexp_nonneg (m e : Z) (l : location) :
  0 <= m -> 0 <= shr_m (fst (shr_fexp prec emax m e l)).
Proof.
  intros H. unfold shr_fexp, shr.
  assert (H0 : 0 <= shr_m (shr_record_of_loc m l)) by (destruct l as [| []]; exact H).
  destruct (fexp prec emax (Zdigits2 m + e) - e); cbn [fst]; try exact H0.
  apply iter_pos_shr_1_nonneg, H0.
Qed.

Lemma round_nearest_even_nonneg (m : Z) (l : location) :
  0 <= m -> 0 <= round_nearest_even m l.
Proof.
  intros H. destruct l as [| []]; cbn; try lia.
  destruct (Z.even m); lia.
Qed.

(** The shapes [binary_round_aux] can return for a non-negative mantissa. *)
Lemma binary_round_aux_shape (sx : bool) (m e : Z) (l : location) :
  0 <= m ->
  (binary_round_aux prec emax sx m e l = S754_zero sx) \/
  (exists m' e', binary_round_aux prec emax sx m e l = S754_finite sx m' e') \/
  (binary_round_aux prec emax sx m e l = S754_infinity sx).
Proof.
  intros H. unfold binary_round_aux.
  pose proof (shr_fexp_nonneg m e l H) as H1.
  destruct (shr_fexp prec emax m e l) as [mrs' e'] eqn:E1. cbn [fst] in H1.
  pose proof (shr_fexp_nonneg
                (round_nearest_even (shr_m mrs') (loc_of_shr_record mrs')) e' loc_Exact
                (round_nearest_even_nonneg _ _ H1)) as H2.
  destruct (shr_fexp prec emax (round_nearest_even _ _) e' loc_Exact) as [mrs'' e''].
  cbn [fst] in H2.
  destruct (shr_m mrs'') as [| p | p].
  - left. reflexivity.
  - destruct (e'' <=? emax - prec); [right; left; eauto | right; right; reflexivity].
  - lia.
Qed.

Lemma binary_normalize_shape (n e : Z) :
  (n <= 0 -> gtb (binary_normalize prec emax n e false) zero = false) /\
  (0 <= n -> is_zero (binary_normalize prec emax n e false) = true \/
             gtb (binary_normalize prec emax n e false) zero = true).
Proof.
  destruct n as [| p | p]; cbn [binary_normalize]; split; intros H; try lia.
  - reflexivity.
  - left. reflexivity.
  - unfold binary_round. destruct (shl_align p e _) as [mz ez].
    destruct (binary_round_aux_shape false (Zpos mz) ez loc_Exact ltac:(lia))
      as [-> | [(m' & e' & ->) | ->]]; auto.
  - unfold binary_round. destruct (shl_align p e _) as [mz ez].
    destruct (binary_round_aux_shape true (Zpos mz) ez loc_Exact ltac:(lia))
      as [-> | [(m' & e' & ->) | ->]]; reflexivity.
Qed.

Lemma iter_xO_value (d m : positive) :
  Zpos (Pos.iter xO m d) = Zpos m * 2 ^ Zpos d.
Proof.
  induction d as [| d IH] using Pos.peano_ind.
  - cbn. lia.
  - rewrite Pos.iter_succ, Pos2Z.inj_xO, IH, Pos2Z.inj_succ, Z.pow_succ_r by lia. lia.
Qed.

Lemma shl_align_value (m : positive) (e ez : Z) :
  ez <= e -> Zpos (fst (shl_align m e ez)) = Zpos m * 2 ^ (e - ez).
Proof.
  intros H. unfold shl_align.
  destruct (ez - e) as [| d | d] eqn:E.
  - replace (e - ez) with 0 by lia. cbn [fst]. lia.
  - lia.
  - cbn [fst]. rewrite iter_xO_value. f_equal. f_equal. lia.
Qed.

Lemma digits2_pos_bound (m : positive) : Zpos m < 2 ^ Zpos (digits2_pos m).
Proof.
  induction m as [m IH | m IH |]; cbn [digits2_pos].
  - rewrite Pos2Z.inj_succ, Z.pow_succ_r by lia. lia.
  - rewrite Pos2Z.inj_succ, Z.pow_succ_r by lia. lia.
  - cbn. lia.
Qed.

Lemma valid_mantissa_bound (s : bool) (m : positive) (e : Z) :
  valid (S754_finite s m e) = true -> Zpos m < 2 ^ 53.
Proof.
  unfold valid, valid_binary, bounded, canonical_mantissa, fexp, emin, prec, emax.
  intros H. apply andb_prop in H. destruct H as [Hc _]. apply Z.eqb_eq in Hc.
  pose proof (digits2_pos_bound m) as Hb.
  assert (Hd : Zpos (digits2_pos m) <= 53) by lia.
  apply Z.lt_le_trans with (1 := Hb).
  apply Z.pow_le_mono_r; lia.
Qed.

Lemma leb_finite_cases (m mc : positive) (e ec : Z) :
  leb (S754_finite false m e) (S754_finite false mc ec) = true ->
  e < ec \/ (e = ec /\ Zpos m <= Zpos mc).
Proof.
  unfold leb, SFleb, SFcompare.
  destruct (Z.compare_spec e ec) as [He | He | He]; intros Hle.
  - right. split; [exact He |].
    pose proof (Pos.compare_spec m mc) as Hs. unfold Pos.compare in Hs.
    revert Hle. destruct Hs as [Hm | Hm | Hm]; intros Hle; try discriminate; lia.
  - left. exact He.
  - discriminate.
Qed.

(** Aligned to a common exponent, a binary64 magnitude that is at most a
    normal one has the smaller mantissa. *)
Lemma small_magnitude_aligned (s : bool) (m mc : positive) (e ec : Z) :
  valid (S754_finite s m e) = true ->
  2 ^ 52 <= Zpos mc ->
  leb (S754_finite false m e) (S754_finite false mc ec) = true ->
  Zpos (fst (shl_align m e (Z.min e ec))) <=
  Zpos (fst (shl_align mc ec (Z.min e ec))).
Proof.
  intros Hv Hc Hle. apply valid_mantissa_bound in Hv.
  apply leb_finite_cases in Hle.
  rewrite (shl_align_value m), (shl_align_value mc) by lia.
  destruct Hle as [He | [He Hm]].
  - rewrite Z.min_l by lia. rewrite Z.sub_diag, Z.mul_1_r.
    assert (Hp : 2 ^ 1 <= 2 ^ (ec - e)) by (apply Z.pow_le_mono_r; lia).
    rewrite Z.pow_1_r in Hp.
    assert (H53 : 2 ^ 53 = 2 * 2 ^ 52) by reflexivity.
    nia.
  - subst ec. rewrite Z.min_id, Z.sub_diag, !Z.mul_1_r. exact Hm.
Qed.

Lemma lit_0_05_normal : 2 ^ 52 <= 7205759403792794.
Proof. discriminate. Qed.

Lemma add_small_positive (m mc : positive) (e ec : Z) :
  valid (S754_finite false m e) = true ->
  2 ^ 52 <= Zpos mc ->
  leb (S754_finite false m e) (S754_finite false mc ec) = true ->
  gtb (add (S754_finite false m e) (S754_finite true mc ec)) zero = false.
Proof.
  intros Hv Hc Hle.
  pose proof (small_magnitude_aligned false m mc e ec Hv Hc Hle) as Ha.
  unfold add, SFadd. cbn [cond_Zopp].
  apply binary_normalize_shape. lia.
Qed.

Lemma add_small_negative (m mc : positive) (e ec : Z) :
  valid (S754_finite true m e) = true ->
  2 ^ 52 <= Zpos mc ->
  leb (S754_finite false m e) (S754_finite false mc ec) = true ->
  is_zero (add (S754_finite true m e) (S754_finite false mc ec)) = true \/
  gtb (add (S754_finite true m e) (S754_finite false mc ec)) zero = true.
Proof.
  intros Hv Hc Hle.
  pose proof (small_magnitude_aligned true m mc e ec Hv Hc Hle) as Ha.
  unfold add, SFadd. cbn [cond_Zopp].
  apply binary_normalize_shape. lia.
Qed.

Lemma is_zero_not_positive (x : float) : is_zero x = true -> gtb x zero = false.
Proof. destruct x as [s | | |]; try discriminate. reflexivity. Qed.

(** X12.  A binary64 speed whose magnitude is at most 0.05 is brought to
    zero by one application of the decay rule. *)
Theorem update_speed_snaps_small (v : float) :
  valid v = true ->
  leb (abs v) lit_0_05 = true ->
  is_zero (update_speed v) = true.
Proof.
  intros Hv Hle. destruct v as [s | s | | s m e].
  - rewrite update_speed_zero. reflexivity.
  - discriminate.
  - discriminate.
  - unfold update_speed. destruct s.
    + replace (gtb (S754_finite true m e) zero) with false by reflexivity.
      cbn [speedDx Bool.eqb].
      destruct (add_small_negative m 7205759403792794 e (-57) Hv lit_0_05_normal Hle)
        as [Hz | Hg].
      * unfold lit_0_05. rewrite (is_zero_not_positive _ Hz). exact Hz.
      * unfold lit_0_05. rewrite Hg. reflexivity.
    + replace (gtb (S754_finite false m e) zero) with true by reflexivity.
      cbn [speedDx Bool.eqb].
      pose proof (add_small_positive m 7205759403792794 e (-57) Hv lit_0_05_normal Hle)
        as Hn.
      replace (opp lit_0_05) with (S754_finite true 7205759403792794 (-57)) by reflexivity.
      rewrite Hn. reflexivity.
Qed.

(** ** Drawing with the identity transform *)

Lemma mul_one_r (x : float) : valid x = true -> mul x one = x.
Proof.
  destruct x as [s | s | | s m e]; try (destruct s; reflexivity); try reflexivity.
  unfold valid, valid_binary, bounded, canonical_mantissa.
  intros H. apply andb_prop in H. destruct H as [Hc He].
  apply Z.eqb_eq in Hc.
  unfold mul, one, of_int.
  change (binary_normalize prec emax 1 0 false)
    with (S754_finite false 4503599627370496 (-52)).
  unfold SFmul. rewrite xorb_false_r, Pos.mul_comm, Z.add_comm.
  change (Pos.mul 4503599627370496 m) with (Pos.iter xO m 52).
  unfold binary_round_aux.
  assert (Hs : shr_fexp prec emax (Z.pos (Pos.iter xO m 52)) (-52 + e) loc_Exact
               = ({| shr_m := Zpos m; shr_r := false; shr_s := false |}, e)).
  { unfold shr_fexp, Zdigits2. rewrite digits2_pos_iter_xO.
    replace (Z.pos (digits2_pos m) + 52 + (-52 + e)) with (Z.pos (digits2_pos m) + e) by lia.
    rewrite Hc. replace (e - (-52 + e)) with 52 by lia.
    unfold shr. replace (-52 + e + 52) with e by lia.
    f_equal. }
  rewrite Hs. cbn [shr_m loc_of_shr_record round_nearest_even].
  unfold shr_fexp, Zdigits2. rewrite Hc, Z.sub_diag. cbn [shr shr_record_of_loc shr_m].
  rewrite He. reflexivity.
Qed.

Lemma add_zero_valid (x : float) : valid x = true -> valid (add x zero) = true.
Proof. destruct x as [s | s | | s m e]; try destruct s; intros H; exact H. Qed.

Lemma draw_identity_step (w : World) :
  valid (pos_x (player w)) = true ->
  valid (pos_y (player w)) = true ->
  let w' := draw one (zero, zero) w in
  same_float (pos_x (player w')) (pos_x (player w)) /\
  same_float (pos_y (player w')) (pos_y (player w)) /\
  valid (pos_x (player w')) = true /\ valid (pos_y (player w')) = true.
Proof.
  intros Hx Hy w'. subst w'. unfold draw.
  cbn [player pos_x pos_y set_pos fst snd]. rewrite (mul_one_r _ Hx), (mul_one_r _ Hy).
  split; [apply add_zero_same; reflexivity |].
  split; [apply add_zero_same; reflexivity |].
  split; apply add_zero_valid; assumption.
Qed.

(** X13.  [draw] with scale factor 1.0 and translation (0, 0) leaves the
    stored position the same number, however often it is called. *)
Theorem draw_identity_keeps_position (n : nat) (w : World) :
  valid (pos_x (player w)) = true ->
  valid (pos_y (player w)) = true ->
  let w' := run (repeat (CallDraw one (zero, zero)) n) w in
  same_float (pos_x (player w')) (pos_x (player w)) /\
  same_float (pos_y (player w')) (pos_y (player w)).
Proof.
  revert w. induction n as [| n IH]; intros w Hx Hy.
  - split; left; reflexivity.
  - destruct (draw_identity_step w Hx Hy) as (Hsx & Hsy & Hvx & Hvy).
    destruct (IH (draw one (zero, zero) w) Hvx Hvy) as [Ha Hb].
    cbn [repeat run call]. cbn zeta in *.
    split; eapply same_float_trans; eassumption.
Qed.

(** ** The decay rule is mirror-symmetric *)

Lemma binary_round_aux_opp (sx : bool) (m e : Z) (l : location) :
  binary_round_aux prec emax (negb sx) m e l =
  opp (binary_round_aux prec emax sx m e l).
Proof.
  unfold binary_round_aux.
  destruct (shr_fexp prec emax m e l) as [mrs' e'].
  destruct (shr_fexp prec emax _ e' loc_Exact) as [mrs'' e''].
  destruct (shr_m mrs''); [reflexivity | | reflexivity].
  destruct (e'' <=? emax - prec); reflexivity.
Qed.

Lemma binary_normalize_opp (n e : Z) :
  n <> 0 ->
  binary_normalize prec emax (- n) e false = opp (binary_normalize prec emax n e false).
Proof.
  destruct n as [| p | p]; intros Hn; [contradiction | |];
    cbn [Z.opp binary_normalize]; unfold binary_round;
    destruct (shl_align p e _) as [mz ez].
  - apply (binary_round_aux_opp false).
  - apply (binary_round_aux_opp true).
Qed.

Lemma binary_normalize_sign (n e : Z) :
  is_zero (binary_normalize prec emax n e false) = true \/
  gtb (binary_normalize prec emax n e false) zero = true \/
  ltb (binary_normalize prec emax n e false) zero = true.
Proof.
  destruct n as [| p | p]; cbn [binary_normalize].
  - left. reflexivity.
  - unfold binary_round. destruct (shl_align p e _) as [mz ez].
    destruct (binary_round_aux_shape false (Zpos mz) ez loc_Exact ltac:(lia))
      as [-> | [(m' & e' & ->) | ->]]; auto.
  - unfold binary_round. destruct (shl_align p e _) as [mz ez].
    destruct (binary_round_aux_shape true (Zpos mz) ez loc_Exact ltac:(lia))
      as [-> | [(m' & e' & ->) | ->]]; auto.
Qed.

Lemma cond_Zopp_negb (s : bool) (z : Z) : cond_Zopp (negb s) z = - cond_Zopp s z.
Proof. destruct s; cbn; lia. Qed.

(** Negating both terms of a sum of finite numbers negates the sum, up to
    the sign of a zero result. *)
Lemma add_opp_finite (sx sy : bool) (mx my : positive) (ex ey : Z) :
  let x := S754_finite sx mx ex in
  let y := S754_finite sy my ey in
  (add (opp x) (opp y) = opp (add x y) \/
   (is_zero (add (opp x) (opp y)) = true /\ is_zero (add x y) = true)) /\
  (is_zero (add x y) = true \/ gtb (add x y) zero = true \/ ltb (add x y) zero = true).
Proof.
  intros x y. unfold x, y, add, opp, SFopp, SFadd. rewrite !cond_Zopp_negb.
  set (n := cond_Zopp sx _ + cond_Zopp sy _).
  replace (- cond_Zopp sx _ + - cond_Zopp sy _) with (- n) by (unfold n; lia).
  split; [| apply binary_normalize_sign].
  destruct (Z.eq_dec n 0) as [-> | Hn].
  - right. split; reflexivity.
  - left. apply binary_normalize_opp, Hn.
Qed.

Lemma ltb_gtb_zero (x : float) : ltb x zero = true -> gtb x zero = false.
Proof. destruct x as [s | s | | s m e]; try destruct s; cbn; congruence. Qed.

Lemma is_zero_opp (x : float) : is_zero (opp x) = is_zero x.
Proof. destruct x; reflexivity. Qed.

Lemma is_zero_not_negative (x : float) : is_zero x = true -> ltb x zero = false.
Proof. destruct x as [s | | |]; try discriminate. reflexivity. Qed.

(** The two branches of the rule on a finite speed. *)
Lemma update_speed_positive (m : positive) (e : Z) :
  update_speed (S754_finite false m e) =
  let r := add (S754_finite false m e) (opp lit_0_05) in
  if gtb r zero then r else zero.
Proof.
  unfold update_speed.
  replace (gtb (S754_finite false m e) zero) with true by reflexivity.
  cbn [speedDx]. destruct (gtb (add _ _) zero); reflexivity.
Qed.

Lemma update_speed_negative (m : positive) (e : Z) :
  update_speed (S754_finite true m e) =
  let r := add (S754_finite true m e) lit_0_05 in
  if gtb r zero then zero else r.
Proof.
  unfold update_speed.
  replace (gtb (S754_finite true m e) zero) with false by reflexivity.
  cbn [speedDx]. destruct (gtb (add _ _) zero); reflexivity.
Qed.

(** X14.  The decay rule is mirror-symmetric on every binary64 value: the
    decayed mirror image of a speed is the mirror image of the decayed
    speed, as numbers.  A wall bounce therefore changes the direction of a
    flight and nothing else about how it slows down. *)
Theorem update_speed_mirror (v : float) :
  same_float (update_speed (opp v)) (opp (update_speed v)).
Proof.
  destruct v as [s | s | | s m e].
  - cbn [opp SFopp]. rewrite !update_speed_zero. right. split; reflexivity.
  - destruct s; left; reflexivity.
  - left. reflexivity.
  - destruct s.
    + change (opp (S754_finite true m e)) with (S754_finite false m e).
      rewrite update_speed_positive, update_speed_negative. cbn zeta.
      destruct (add_opp_finite true false m 7205759403792794 e (-57)) as [Hs Ht].
      cbn zeta in Hs, Ht.
      change (opp (S754_finite true m e)) with (S754_finite false m e) in Hs.
      change (opp (S754_finite false 7205759403792794 (-57))) with (opp lit_0_05) in Hs.
      change (S754_finite false 7205759403792794 (-57)) with lit_0_05 in Hs, Ht.
      set (r := add (S754_finite true m e) lit_0_05) in *.
      set (r' := add (S754_finite false m e) (opp lit_0_05)) in *.
      destruct Ht as [Hz | [Hp | Hn]].
      * rewrite (is_zero_not_positive _ Hz).
        assert (Hz' : is_zero r' = true).
        { destruct Hs as [-> | [Hz' _]]; [rewrite is_zero_opp |]; assumption. }
        rewrite (is_zero_not_positive _ Hz').
        right. split; [reflexivity | rewrite is_zero_opp; exact Hz].
      * rewrite Hp.
        assert (Hr : r' = opp r).
        { destruct Hs as [-> | [_ Hz]]; [reflexivity |].
          apply is_zero_not_positive in Hz. congruence. }
        rewrite Hr, gtb_opp_zero, (gtb_ltb_zero _ Hp).
        right. split; reflexivity.
      * rewrite (ltb_gtb_zero _ Hn).
        assert (Hr : r' = opp r).
        { destruct Hs as [-> | [_ Hz]]; [reflexivity |].
          apply is_zero_not_negative in Hz. congruence. }
        rewrite Hr, gtb_opp_zero, Hn. left. reflexivity.
    + change (opp (S754_finite false m e)) with (S754_finite true m e).
      rewrite update_speed_positive, update_speed_negative. cbn zeta.
      destruct (add_opp_finite false true m 7205759403792794 e (-57)) as [Hs Ht].
      cbn zeta in Hs, Ht.
      change (opp (S754_finite false m e)) with (S754_finite true m e) in Hs.
      change (opp (S754_finite true 7205759403792794 (-57))) with lit_0_05 in Hs.
      change (S754_finite true 7205759403792794 (-57)) with (opp lit_0_05) in Hs, Ht.
      set (r := add (S754_finite false m e) (opp lit_0_05)) in *.
      set (r' := add (S754_finite true m e) lit_0_05) in *.
      destruct Ht as [Hz | [Hp | Hn]].
      * rewrite (is_zero_not_positive _ Hz).
        assert (Hz' : is_zero r' = true).
        { destruct Hs as [-> | [Hz' _]]; [rewrite is_zero_opp |]; assumption. }
        rewrite (is_zero_not_positive _ Hz').
        right. split; [exact Hz' | reflexivity].
      * rewrite Hp.
        assert (Hr : r' = opp r).
        { destruct Hs as [-> | [_ Hz]]; [reflexivity |].
          apply is_zero_not_positive in Hz. congruence. }
        rewrite Hr, gtb_opp_zero, (gtb_ltb_zero _ Hp). left. reflexivity.
      * rewrite (ltb_gtb_zero _ Hn).
        assert (Hr : r' = opp r).
        { destruct Hs as [-> | [_ Hz]]; [reflexivity |].
          apply is_zero_not_negative in Hz. congruence. }
        rewrite Hr, gtb_opp_zero, Hn. right. split; reflexivity.
Qed.

(** ** The wall test, tick by tick *)

Lemma flipped_negative_or_zero (v : float) :
  gtb v zero = true ->
  ltb (update_speed (opp v)) zero = true \/ is_zero (update_speed (opp v)) = true.
Proof.
  destruct v as [s | s | | s m e]; try discriminate.
  - destruct s; [discriminate | intros _; left; reflexivity].
  - destruct s; [discriminate | intros _].
    change (opp (S754_finite false m e)) with (S754_finite true m e).
    rewrite update_speed_negative. cbn zeta.
    destruct (add_opp_finite true false m 7205759403792794 e (-57)) as [_ Ht].
    cbn zeta in Ht.
    change (S754_finite false 7205759403792794 (-57)) with lit_0_05 in Ht.
    destruct Ht as [Hz | [Hp | Hn]].
    + rewrite (is_zero_not_positive _ Hz). right. exact Hz.
    + rewrite Hp. right. reflexivity.
    + rewrite (ltb_gtb_zero _ Hn). left. exact Hn.
Qed.

Lemma flipped_positive_or_zero (v : float) :
  ltb v zero = true ->
  gtb (update_speed (opp v)) zero = true \/ is_zero (update_speed (opp v)) = true.
Proof.
  destruct v as [s | s | | s m e]; try discriminate.
  - destruct s; [intros _; left; reflexivity | discriminate].
  - destruct s; [intros _ | discriminate].
    change (opp (S754_finite true m e)) with (S754_finite false m e).
    rewrite update_speed_positive. cbn zeta.
    destruct (gtb (add (S754_finite false m e) (opp lit_0_05)) zero) eqn:Hp.
    + left. exact Hp.
    + right. reflexivity.
Qed.

(** C4 (as amended).  The wall test is made afresh in every tick.  In a tick
    whose integrated x position is at or below the player's width or at or
    above the screen's width, the x speed is negated once and then decayed:
    a positive speed leaves the tick negative or zero, a negative one
    positive or zero.  In a tick whose integrated position is elsewhere the
    speed is only decayed and keeps its sign.  The same for y with the
    heights.  Nothing ties the negation to a crossing: it happens again on
    every tick that ends in the zone. *)
Theorem C4_wall_bounce (inp : TickInput) (w : World) :
  let p := player w in
  let p' := player (update inp w) in
  let x' := add (pos_x p) (speed_x p) in
  let y' := add (pos_y p) (speed_y p) in
  let wall_x := leb x' (of_int player_width) || geb x' (of_int (screen_width (game w))) in
  let wall_y := leb y' (of_int player_height) || geb y' (of_int (screen_height (game w))) in
  valid (speed_x p) = true -> valid (speed_y p) = true ->
  (pos_x p' = x' /\ pos_y p' = y') /\
  speed_x p' = (if wall_x then update_speed (opp (speed_x p))
                else update_speed (speed_x p)) /\
  speed_y p' = (if wall_y then update_speed (opp (speed_y p))
                else update_speed (speed_y p)) /\
  (wall_x = true ->
   (gtb (speed_x p) zero = true ->
    ltb (speed_x p') zero = true \/ is_zero (speed_x p') = true) /\
   (ltb (speed_x p) zero = true ->
    gtb (speed_x p') zero = true \/ is_zero (speed_x p') = true)) /\
  (wall_y = true ->
   (gtb (speed_y p) zero = true ->
    ltb (speed_y p') zero = true \/ is_zero (speed_y p') = true) /\
   (ltb (speed_y p) zero = true ->
    gtb (speed_y p') zero = true \/ is_zero (speed_y p') = true)) /\
  (wall_x = false ->
   (gtb (speed_x p') zero = true -> gtb (speed_x p) zero = true) /\
   (ltb (speed_x p') zero = true -> ltb (speed_x p) zero = true)) /\
  (wall_y = false ->
   (gtb (speed_y p') zero = true -> gtb (speed_y p) zero = true) /\
   (ltb (speed_y p') zero = true -> ltb (speed_y p) zero = true)).
Proof.
  intros p p' x' y' wall_x wall_y Hvx Hvy.
  destruct (wall_bounce_tick inp w Hvx Hvy) as (Hx & Hy & _ & _).
  fold p p' x' y' in Hx, Hy. fold wall_x in Hx. fold wall_y in Hy.
  split; [apply (update_pos inp w) |].
  split; [exact Hx |]. split; [exact Hy |].
  split; [| split; [| split]].
  - intros Hw. rewrite Hx, Hw. split; intros Hs.
    + apply flipped_negative_or_zero, Hs.
    + apply flipped_positive_or_zero, Hs.
  - intros Hw. rewrite Hy, Hw. split; intros Hs.
    + apply flipped_negative_or_zero, Hs.
    + apply flipped_positive_or_zero, Hs.
  - intros Hw. rewrite Hx, Hw. split.
    + apply update_speed_keeps_positive.
    + apply update_speed_keeps_negative.
  - intros Hw. rewrite Hy, Hw. split.
    + apply update_speed_keeps_positive.
    + apply update_speed_keeps_negative.
Qed.

(** ** A player that was never launched *)

Lemma call_keeps_grounded (c : Call) (w : World) :
  is_space_press c = false ->
  state (player w) <> SHOOTING ->
  state (player (call c w)) <> SHOOTING.
Proof.
  intros Hc Hs. destruct c as [e | inp | | sc t].
  - destruct e as [k | k | | n]; try exact Hs.
    destruct k; cbn; try discriminate; exact Hs.
  - cbn [call]. change (update inp w) with (updates [inp] w).
    rewrite updates_keep_other_modes; exact Hs.
  - exact Hs.
  - exact Hs.
Qed.

Lemma run_keeps_grounded (cs : list Call) (w : World) :
  without is_space_press cs = true ->
  state (player w) <> SHOOTING ->
  state (player (run cs w)) <> SHOOTING.
Proof.
  revert w. induction cs as [| c cs IH]; intros w Hcs Hs; [exact Hs |].
  cbn in Hcs. apply andb_prop in Hcs. destruct Hcs as [Hc Hcs].
  apply negb_true_iff in Hc.
  cbn [run]. apply IH; [exact Hcs |]. apply call_keeps_grounded; assumption.
Qed.

(** X15.  A player built by the constructor and then driven by any run of
    calls with no space press is never SHOOTING, has velocity (0, 0), and
    keeps as launch origin the centre it was built with. *)
Theorem fresh_player_never_flies (x y : float) (g : Game) (pg : Pygame)
        (cs : list Call) :
  without is_space_press cs = true ->
  let w' := run cs (mkWorld (init x y) g pg) in
  state (player w') <> SHOOTING /\
  is_zero (speed_x (player w')) = true /\
  is_zero (speed_y (player w')) = true /\
  shooting_start_position (player w') =
    (add x (of_int (player_width / 2)), add y (of_int (player_height / 2))).
Proof.
  intros Hcs w'. unfold w'.
  split; [apply run_keeps_grounded; [exact Hcs | discriminate] |].
  destruct (only_space_sets_velocity cs (mkWorld (init x y) g pg) Hcs eq_refl eq_refl)
    as (Hx & Hy & _).
  split; [exact Hx |]. split; [exact Hy |].
  rewrite (run_keeps_origin _ _ Hcs). reflexivity.
Qed.
End Player.

(** ** Concrete runs

    The configuration used below: a 50 x 50 player, [max_power_size = 1000],
    trigonometry at angle 0, and a session that stores what it is asked. *)

Local Abbreviation handle_event0 :=
  (handle_event 50 50 1000 radians_at_0 cos_at_0 sin_at_0 store_power_size).
Local Abbreviation update0 := (update 50 50).
Local Abbreviation updates0 := (updates 50 50).
Local Abbreviation run0 :=
  (run 50 50 1000 radians_at_0 cos_at_0 sin_at_0 store_power_size).

(** The literals are the doubles nearest to 1/20 and 1/100. *)
Example literals_nearest :
  div (of_int 1) (of_int 20) = lit_0_05 /\
  div (of_int 1) (of_int 100) = lit_0_01 /\
  valid lit_0_05 = true /\ valid lit_0_01 = true.
Proof. vm_compute. repeat split; reflexivity. Qed.

(** Launch speeds 0.01 * (100 k) for k = 0, ..., 10, nominally k: each is 0
    after 20 k + 1 decay ticks, but after 20 k ticks only for k = 0, 1, 2
    and 10. *)
Example launch_speeds_settle :
  let v (k : nat) := mul lit_0_01 (of_int (100 * Z.of_nat k)) in
  forallb (fun k => is_zero (decay (20 * k + 1) (v k))) (seq 0 11) = true /\
  map (fun k => is_zero (decay (20 * k) (v k))) (seq 0 11) =
  [true; true; true; false; false; false; false; false; false; false; true].
Proof. vm_compute. split; reflexivity. Qed.

(** The spec's launch: (400, 300), direction 0, power 300.  The flight lasts
    61 ticks: the mode is still SHOOTING after 60 and IDLE after 61. *)
Example flight_of_3_lasts_61_ticks :
  let w1 := fst (handle_event0 (sample_world 300) (KEYDOWN K_SPACE)) in
  speed_x (player w1) = of_int 3 /\
  state (player (updates0 (repeat idle_tick 60) w1)) = SHOOTING /\
  state (player (updates0 (repeat idle_tick 61) w1)) = IDLE /\
  speed_x (player (updates0 (repeat idle_tick 61) w1)) = zero.
Proof. vm_compute. repeat split; reflexivity. Qed.

(** A player that stays inside the wall zone has its speed negated on every
    tick: at x = 10 (below the width 50) a speed of 3.0 becomes -2.95, then
    +2.9. *)
Example wall_zone_flips_every_tick :
  let w := mkWorld (mkPlayer SHOOTING (of_int 10) (of_int 300) 0 (of_int 3) zero
                             (zero, zero))
                   (sample_game 300) (mkPygame None None) in
  ltb (speed_x (player (update0 idle_tick w))) zero = true /\
  gtb (speed_x (player (update0 idle_tick (update0 idle_tick w)))) zero = true.
Proof. vm_compute. split; reflexivity. Qed.

(** Two draws at scale 2 with translation (10, 10) move the stored position
    from (400, 300) to (810, 610) and then to (1630, 1230). *)
Example draw_twice_compounds :
  let w1 := draw (of_int 2) (of_int 10, of_int 10) (sample_world 300) in
  let w2 := draw (of_int 2) (of_int 10, of_int 10) w1 in
  (pos_x (player w1), pos_y (player w1)) = (of_int 810, of_int 610) /\
  (pos_x (player w2), pos_y (player w2)) = (of_int 1630, of_int 1230).
Proof. vm_compute. split; reflexivity. Qed.

(** C1, counterexample: [ceil(3.0 / 0.05)] is 60, and after 60 decay ticks a
    component that started at 3.0 is not 0. *)
Lemma C1_sixty_ticks_counterexample :
  Z.to_nat (Qceiling (Qabs 3 / (1 # 20))) = 60%nat /\
  eqb (decay 60 (of_int 3)) zero = false /\
  gtb (decay 60 (of_int 3)) zero = true.
Proof. vm_compute. repeat split; reflexivity. Qed.

(** C2, witness: the spec's scenario. *)
Lemma C2_space_launches_witness :
  let w := sample_world 300 in
  let p' := player (fst (handle_event0 w (KEYDOWN K_SPACE))) in
  (direction (player w) = 0 /\ power_size (game w) = 300) /\
  speed_x p' = of_int 3 /\ speed_y p' = zero.
Proof.
  split; [split; reflexivity |].
  destruct (C2_space_launches 50 50 1000 radians_at_0 cos_at_0 sin_at_0
                              store_power_size (sample_world 300))
    as (_ & _ & _ & _ & _ & H).
  apply H; reflexivity.
Defined.

(** C3, witness: the last tick of a flight. *)
Lemma C3_idle_only_after_flight_witness :
  let w := flying_world lit_0_05 zero in
  state (player w) <> IDLE /\ state (player (update0 idle_tick w)) = IDLE.
Proof.
  destruct (C3_idle_only_after_flight 50 50 1000 radians_at_0 cos_at_0 sin_at_0
                                      store_power_size) as (H & _).
  apply (H idle_tick (flying_world lit_0_05 zero)).
  repeat split; reflexivity.
Defined.

(** C4, counterexample: one crossing, several flips.  The player starts
    outside the wall zone and moves left into it; every one of the next four
    ticks ends in the zone, and the x speed changes sign on each of them. *)
Lemma C4_one_crossing_many_flips_counterexample :
  let after (n : nat) := player (updates0 (repeat idle_tick n) crossing_world) in
  let in_zone (p : Player) := leb (pos_x p) (of_int 50) || geb (pos_x p) (of_int 800) in
  in_zone (player crossing_world) = false /\
  ltb (speed_x (player crossing_world)) zero = true /\
  map in_zone [after 1%nat; after 2%nat; after 3%nat; after 4%nat]
  = [true; true; true; true] /\
  gtb (speed_x (after 1%nat)) zero = true /\
  ltb (speed_x (after 2%nat)) zero = true /\
  gtb (speed_x (after 3%nat)) zero = true /\
  ltb (speed_x (after 4%nat)) zero = true.
Proof. vm_compute. repeat split; reflexivity. Qed.

(** C4, witness: a player moving right at 3.0 that reaches the right edge of
    the 800-wide screen leaves the tick moving left. *)
Lemma C4_wall_bounce_witness :
  let w := mkWorld (mkPlayer SHOOTING (of_int 798) (of_int 300) 0 (of_int 3) zero
                             (zero, zero))
                   (sample_game 300) (mkPygame None None) in
  (valid (speed_x (player w)) = true /\ valid (speed_y (player w)) = true) /\
  (ltb (speed_x (player (update0 idle_tick w))) zero = true \/
   is_zero (speed_x (player (update0 idle_tick w))) = true).
Proof.
  split; [split; reflexivity |].
  destruct (C4_wall_bounce 50 50 idle_tick
              (mkWorld (mkPlayer SHOOTING (of_int 798) (of_int 300) 0 (of_int 3) zero
                                 (zero, zero))
                       (sample_game 300) (mkPygame None None))
              eq_refl eq_refl) as (_ & _ & _ & H & _).
  apply H; reflexivity.
Defined.

(** C5, counterexample: at [power_size = max_power_size = 1000] an up press
    leaves the game untouched; no request for 1100 reaches the session. *)
Lemma C5_no_request_at_bound_counterexample :
  let w := sample_world 1000 in
  let r := handle_event0 w (KEYDOWN K_UP) in
  game (fst r) = game w /\
  power_size (game (fst r)) <> power_size (game w) + 100 /\
  power_size (store_power_size (game w) (power_size (game w) + 100)) = 1100.
Proof. vm_compute. repeat split; discriminate. Qed.

(** C5, witness: an up press at power 300 with a clamping session. *)
Lemma C5_power_keys_witness :
  let w := sample_world 300 in
  let r := handle_event 50 50 1000 radians_at_0 cos_at_0 sin_at_0
                        (clamp_power_size 1000) w (KEYDOWN K_UP) in
  state (player (fst r)) = POWER /\ power_size (game (fst r)) = 400 /\
  0 <= power_size (game (fst r)) <= 1000.
Proof.
  destruct (C5_power_keys 50 50 1000 radians_at_0 cos_at_0 sin_at_0
                          (clamp_power_size 1000) (sample_world 300) K_UP
                          (or_introl eq_refl)) as (Hs & _ & Hg & Hr).
  split; [exact Hs |]. split; [rewrite Hg; reflexivity |].
  apply Hr.
  - intros g0 v. cbn. lia.
  - cbn. lia.
Defined.

(** C7, witness: three left presses on the sample player. *)
Lemma C7_direction_steps_witness :
  direction (player (sample_world 300)) = 0 /\
  direction (player (run0 [CallHandleEvent (KEYDOWN K_LEFT);
                           CallHandleEvent (KEYDOWN K_LEFT);
                           CallHandleEvent (KEYDOWN K_LEFT)] (sample_world 300))) = -15.
Proof.
  split; [reflexivity |].
  destruct (C7_direction_steps 50 50 1000 radians_at_0 cos_at_0 sin_at_0
                               store_power_size) as (_ & _ & _ & _ & _ & H).
  apply H. reflexivity.
Defined.

(** C8, counterexample: with power 0 a space press starts a flight whose
    velocity is (0, 0), and the mode is SHOOTING all the same. *)
Lemma C8_launch_with_zero_velocity_counterexample :
  let p' := player (fst (handle_event0 (sample_world 0) (KEYDOWN K_SPACE))) in
  state p' = SHOOTING /\ speed_x p' = zero /\ speed_y p' = zero.
Proof. vm_compute. repeat split; reflexivity. Qed.

(** C8, witness: the same launch, through the theorem. *)
Lemma C8_launched_mode_witness :
  let w := sample_world 0 in
  let p' := player (fst (handle_event0 w (KEYDOWN K_SPACE))) in
  power_size (game w) = 0 /\
  state p' = SHOOTING /\ is_zero (speed_x p') = true /\ is_zero (speed_y p') = true.
Proof.
  split; [reflexivity |].
  destruct (C8_launched_mode 50 50 1000 radians_at_0 cos_at_0 sin_at_0
                             store_power_size) as (_ & H & _).
  apply (H (sample_world 0)); reflexivity.
Defined.

(** C9, witness: a key release and an unbound key change nothing. *)
Lemma C9_other_events_ignored_witness :
  handled (KEYUP K_SPACE) = false /\
  handle_event0 (sample_world 300) (KEYUP K_SPACE) = (sample_world 300, 0) /\
  handle_event0 (sample_world 300) (KEYDOWN (K_OTHER 97)) = (sample_world 300, 0).
Proof.
  split; [reflexivity |]. split.
  - apply (C9_other_events_ignored 50 50 1000 radians_at_0 cos_at_0 sin_at_0
                                   store_power_size). reflexivity.
  - apply (C9_other_events_ignored 50 50 1000 radians_at_0 cos_at_0 sin_at_0
                                   store_power_size). reflexivity.
Defined.

(** C10, witness: the sample player at rest through three ticks, one of them
    with repeat events queued. *)
Lemma C10_zero_fixed_point_witness :
  let w := sample_world 300 in
  let w' := updates0 [idle_tick; mkTick 2 true false; idle_tick] w in
  (is_zero (speed_x (player w)) = true /\ is_zero (speed_y (player w)) = true) /\
  is_zero (speed_x (player w')) = true /\
  is_zero (speed_y (player w')) = true /\
  same_float (pos_x (player w')) (pos_x (player w)) /\
  same_float (pos_y (player w')) (pos_y (player w)).
Proof.
  split; [split; reflexivity |].
  destruct (C10_zero_fixed_point 50 50) as (_ & H).
  apply (H [idle_tick; mkTick 2 true false; idle_tick] (sample_world 300));
    reflexivity.
Defined.

(** ** Concrete runs of the further properties *)

(** X1, witness: a flight at 3.0 that is stopped. *)
Lemma stop_then_tick_settles_witness :
  let w := flying_world (of_int 3) zero in
  state (player w) = SHOOTING /\
  state (player (update0 idle_tick (stop w))) = IDLE /\
  shooting (game (update0 idle_tick (stop w))) = false.
Proof.
  split; [reflexivity |].
  destruct (stop_then_tick_settles 50 50 idle_tick (flying_world (of_int 3) zero) eq_refl)
    as (_ & Hs & _ & _ & Hg & _).
  split; [exact Hs | exact Hg].
Defined.

(** X2, witness: the last tick of a flight at 0.05 and the tick after it. *)
Lemma shooting_flag_clears_a_tick_late_witness :
  let w := flying_world lit_0_05 zero in
  state (player (update0 idle_tick w)) = IDLE /\
  shooting (game (update0 idle_tick w)) = true /\
  shooting (game (update0 idle_tick (update0 idle_tick w))) = false.
Proof.
  split; [reflexivity |].
  destruct (shooting_flag_clears_a_tick_late 50 50 idle_tick idle_tick
              (flying_world lit_0_05 zero) eq_refl eq_refl eq_refl) as [H1 H2].
  split; [rewrite H1; reflexivity | exact H2].
Defined.

(** X3, witness: a left press during a flight at 3.0, then 100 ticks. *)
Lemma key_during_flight_abandons_it_witness :
  let w := flying_world (of_int 3) zero in
  state (player w) = SHOOTING /\
  state (player (updates0 (repeat idle_tick 100)
                          (fst (handle_event0 w (KEYDOWN K_LEFT))))) = AIMING.
Proof.
  split; [reflexivity |].
  apply (key_during_flight_abandons_it 50 50 1000 radians_at_0 cos_at_0 sin_at_0
           store_power_size K_LEFT (repeat idle_tick 100)
           (flying_world (of_int 3) zero)).
  left. reflexivity.
Defined.

(** X4, witness: ten ticks into the decay of 3.0. *)
Lemma decay_keeps_sign_witness :
  gtb (decay 10 (of_int 3)) zero = true /\ gtb (of_int 3) zero = true.
Proof.
  split; [reflexivity |].
  apply (decay_keeps_sign 10 (of_int 3)). reflexivity.
Defined.

(** X5, witness: a launch followed by a tick, a draw and a left press. *)
Lemma launch_origin_persists_witness :
  let cs := [CallUpdate idle_tick;
             CallDraw (of_int 2) (of_int 10, of_int 10);
             CallHandleEvent (KEYDOWN K_LEFT)] in
  without is_space_press cs = true /\
  shooting_start_position
    (player (run0 cs (fst (handle_event0 (sample_world 300) (KEYDOWN K_SPACE))))) =
  (of_int 425, of_int 325).
Proof.
  split; [reflexivity |].
  rewrite (launch_origin_persists 50 50 1000 radians_at_0 cos_at_0 sin_at_0
             store_power_size
             [CallUpdate idle_tick;
              CallDraw (of_int 2) (of_int 10, of_int 10);
              CallHandleEvent (KEYDOWN K_LEFT)]
             (sample_world 300) eq_refl).
  reflexivity.
Defined.

(** X6, witness: a right press followed by a launch, a stop and a tick. *)
Lemma repeat_timer_stays_armed_witness :
  let cs := [CallHandleEvent (KEYDOWN K_SPACE); CallStop; CallUpdate idle_tick] in
  user_timer (pygame (sample_world 300)) = None /\
  user_timer (pygame (run0 cs (fst (handle_event0 (sample_world 300)
                                                  (KEYDOWN K_RIGHT))))) = Some 100.
Proof.
  split; [reflexivity |].
  apply (repeat_timer_stays_armed 50 50 1000 radians_at_0 cos_at_0 sin_at_0
           store_power_size K_RIGHT
           [CallHandleEvent (KEYDOWN K_SPACE); CallStop; CallUpdate idle_tick]
           (sample_world 300)).
  right. reflexivity.
Defined.

(** X7, witness: aiming, charging and ticking without a launch. *)
Lemma only_space_sets_velocity_witness :
  let cs := [CallHandleEvent (KEYDOWN K_LEFT); CallUpdate (mkTick 3 true false);
             CallHandleEvent (KEYDOWN K_UP); CallStop; CallUpdate idle_tick] in
  without is_space_press cs = true /\
  is_zero (speed_x (player (run0 cs (sample_world 300)))) = true /\
  same_float (pos_x (player (run0 cs (sample_world 300)))) (of_int 400).
Proof.
  split; [reflexivity |].
  destruct (only_space_sets_velocity 50 50 1000 radians_at_0 cos_at_0 sin_at_0
              store_power_size
              [CallHandleEvent (KEYDOWN K_LEFT); CallUpdate (mkTick 3 true false);
               CallHandleEvent (KEYDOWN K_UP); CallStop; CallUpdate idle_tick]
              (sample_world 300) eq_refl eq_refl eq_refl) as (Hx & _ & Hp).
  split; [exact Hx |]. apply (Hp eq_refl).
Defined.

(** X8, witness: a launch, ticks and a draw leave the power at 300. *)
Lemma only_power_keys_touch_power_witness :
  let cs := [CallHandleEvent (KEYDOWN K_SPACE); CallUpdate idle_tick;
             CallDraw (of_int 2) (zero, zero); CallHandleEvent (KEYDOWN K_LEFT)] in
  without is_power_press cs = true /\
  power_size (game (run0 cs (sample_world 300))) = 300.
Proof.
  split; [reflexivity |].
  apply (only_power_keys_touch_power 50 50 1000 radians_at_0 cos_at_0 sin_at_0
           store_power_size
           [CallHandleEvent (KEYDOWN K_SPACE); CallUpdate idle_tick;
            CallDraw (of_int 2) (zero, zero); CallHandleEvent (KEYDOWN K_LEFT)]
           (sample_world 300) eq_refl).
Defined.

(** X9, witness: an up press at power 300 of 1000. *)
Lemma aligned_power_request_in_range_witness :
  let w := sample_world 300 in
  game (fst (handle_event0 w (KEYDOWN K_UP))) = game w \/
  exists v : Z,
    0 <= v <= 1000 /\ (100 | v) /\ Z.abs (v - power_size (game w)) = 100 /\
    game (fst (handle_event0 w (KEYDOWN K_UP))) = store_power_size (game w) v.
Proof.
  apply (aligned_power_request_in_range 50 50 1000 radians_at_0 cos_at_0 sin_at_0
           store_power_size K_UP (sample_world 300)).
  - left. reflexivity.
  - exists 3. reflexivity.
  - exists 10. reflexivity.
  - cbn. lia.
Defined.

(** X10, witness: an up press at power 950 of 1000 asks for 1050. *)
Lemma unaligned_power_request_out_of_range_witness :
  let w := sample_world 950 in
  power_size (game (fst (handle_event0 w (KEYDOWN K_UP)))) = 1050 /\
  1000 < power_size (game w) + 100.
Proof.
  destruct (unaligned_power_request_out_of_range 50 50 1000 radians_at_0 cos_at_0
              sin_at_0 store_power_size (sample_world 950)) as [H _].
  destruct H as [Hg Hm]; [cbn; lia |].
  split; [rewrite Hg; reflexivity | exact Hm].
Defined.

(** X11, witness: a launch of the sample player with power 0. *)
Lemma zero_power_launch_ends_at_once_witness :
  let w := sample_world 0 in
  power_size (game w) = 0 /\
  state (player (update0 idle_tick (fst (handle_event0 w (KEYDOWN K_SPACE))))) = IDLE.
Proof.
  split; [reflexivity |].
  apply (zero_power_launch_ends_at_once 50 50 1000 radians_at_0 cos_at_0 sin_at_0
           store_power_size idle_tick (sample_world 0)); reflexivity.
Defined.

(** X12, witness: 0.05 itself and -0.01. *)
Lemma update_speed_snaps_small_witness :
  (valid lit_0_05 = true /\ leb (abs lit_0_05) lit_0_05 = true) /\
  is_zero (update_speed lit_0_05) = true /\
  is_zero (update_speed (opp lit_0_01)) = true.
Proof.
  split; [split; reflexivity |].
  split; apply update_speed_snaps_small; reflexivity.
Defined.

(** X13, witness: three identity draws of the sample player. *)
Lemma draw_identity_keeps_position_witness :
  let w := sample_world 300 in
  valid (pos_x (player w)) = true /\
  same_float (pos_x (player (run0 (repeat (CallDraw one (zero, zero)) 3) w)))
             (of_int 400).
Proof.
  split; [reflexivity |].
  apply (draw_identity_keeps_position 50 50 1000 radians_at_0 cos_at_0 sin_at_0
           store_power_size 3 (sample_world 300)); reflexivity.
Defined.

(** X15, witness: a fresh player at (400, 300) that is aimed, charged and
    ticked. *)
Lemma fresh_player_never_flies_witness :
  let cs := [CallHandleEvent (KEYDOWN K_RIGHT); CallHandleEvent (KEYDOWN K_UP);
             CallUpdate (mkTick 1 false true); CallDraw one (zero, zero)] in
  let w' := run0 cs (mkWorld (init 50 50 (of_int 400) (of_int 300))
                             (sample_game 300) (mkPygame None None)) in
  without is_space_press cs = true /\
  state (player w') <> SHOOTING /\
  shooting_start_position (player w') = (of_int 425, of_int 325).
Proof.
  split; [reflexivity |].
  destruct (fresh_player_never_flies 50 50 1000 radians_at_0 cos_at_0 sin_at_0
              store_power_size (of_int 400) (of_int 300) (sample_game 300)
              (mkPygame None None)
              [CallHandleEvent (KEYDOWN K_RIGHT); CallHandleEvent (KEYDOWN K_UP);
               CallUpdate (mkTick 1 false true); CallDraw one (zero, zero)]
              eq_refl) as (Hs & _ & _ & Ho).
  split; [exact Hs |]. rewrite Ho. reflexivity.
Defined.
